(** * RealChipWhispererDemo: a shallow embedding of [real_hardware_demo.py]

    The script drives a ChipWhisperer capture device through the vendor SDK,
    reduces the captured power traces with numpy and renders a plot.  The
    embedding keeps the three external libraries as interfaces:

    - the SDK and matplotlib are a [Device]: every call is a transition of an
      abstract world that either returns or raises;
    - numpy's [float64] is a [Float64] structure.  The reductions of numpy are
      written over it in the order numpy adds (pairwise along a contiguous
      run, row by row along axis 0); the inner product that [np.cov] takes
      from BLAS, whose order and fusing are the library's, is an operation of
      the structure.  The structure is instantiated twice: by Rocq's
      primitive binary64 floats (executable) and by the real numbers
      extended with NaN (exact arithmetic);
    - the methods of [RealChipWhispererDemo] are programs of a state monad
      whose state survives a raised exception, as in Python.

    [print] calls are not modelled, except for the library calls evaluated
    inside their arguments, which can raise. *)

From Stdlib Require Import List ZArith Lia Bool String Ascii QArith.
From Stdlib Require Strings.Byte.
From Stdlib Require Import Floats Reals Lra.
Import ListNotations.

Set Implicit Arguments.

(* ------------------------------------------------------------------ *)
(** ** float64 scalars *)

(** The operations on [float64] values that the script reaches through
    numpy. *)
Class Float64 (F : Type) : Type := {
  f_of_nat : nat -> F;          (* an integer count used as a float *)
  f_lit_1_5 : F;                (* the literal 1.5 *)
  f_add : F -> F -> F;
  f_sub : F -> F -> F;
  f_mul : F -> F -> F;
  f_div : F -> F -> F;
  f_sqrt : F -> F;
  f_ltb : F -> F -> bool;       (* x < y, false on NaN *)
  f_is_nan : F -> bool;
  f_dot : list F -> list F -> F (* the inner product of two rows, by BLAS *)
}.

(** IEEE-754 binary64, as numpy computes. *)
Fixpoint float_of_nat (n : nat) : float :=
  match n with
  | O => 0%float
  | S k => PrimFloat.add (float_of_nat k) 1%float
  end.

(** An inner product that adds the rounded products in turn.  Every BLAS
    agrees with it on rows whose products and partial sums are exact. *)
Definition products_in_turn {F : Type} (add mul : F -> F -> F) (z : F)
    (a b : list F) : F :=
  fold_left (fun acc p => add acc (mul (fst p) (snd p))) (combine a b) z.

#[export] Instance float64_prim : Float64 float := {
  f_of_nat := float_of_nat;
  f_lit_1_5 := 1.5%float;
  f_add := PrimFloat.add;
  f_sub := PrimFloat.sub;
  f_mul := PrimFloat.mul;
  f_div := PrimFloat.div;
  f_sqrt := PrimFloat.sqrt;
  f_ltb := PrimFloat.ltb;
  f_is_nan := PrimFloat.is_nan;
  f_dot := products_in_turn PrimFloat.add PrimFloat.mul 0%float
}.

(** Exact arithmetic: a real number, or NaN where the quotient is undefined. *)
Inductive xreal : Type :=
| XR (r : R)
| XNaN.

Definition xlift2 (g : R -> R -> R) (a b : xreal) : xreal :=
  match a, b with
  | XR x, XR y => XR (g x y)
  | _, _ => XNaN
  end.

Definition xdiv (a b : xreal) : xreal :=
  match a, b with
  | XR x, XR y => if Req_dec_T y 0 then XNaN else XR (x / y)
  | _, _ => XNaN
  end.

Definition xsqrt (a : xreal) : xreal :=
  match a with
  | XR x => if Rlt_dec x 0 then XNaN else XR (sqrt x)
  | XNaN => XNaN
  end.

Definition xltb (a b : xreal) : bool :=
  match a, b with
  | XR x, XR y => if Rlt_dec x y then true else false
  | _, _ => false
  end.

Definition xis_nan (a : xreal) : bool :=
  match a with XR _ => false | XNaN => true end.

#[export] Instance float64_exact : Float64 xreal := {
  f_of_nat := fun n => XR (INR n);
  f_lit_1_5 := XR (3 / 2);
  f_add := xlift2 Rplus;
  f_sub := xlift2 Rminus;
  f_mul := xlift2 Rmult;
  f_div := xdiv;
  f_sqrt := xsqrt;
  f_ltb := xltb;
  f_is_nan := xis_nan;
  f_dot := products_in_turn (xlift2 Rplus) (xlift2 Rmult) (XR 0)
}.

(* ------------------------------------------------------------------ *)
(** ** Outcomes of a call *)

Inductive outcome (A : Type) : Type :=
| Ret (a : A)
| Raise (e : string).
Arguments Ret {A} a.
Arguments Raise {A} e.

(* ------------------------------------------------------------------ *)
(** ** numpy *)

Module Np.
Section Reductions.
Context {F : Type} `{Float64 F}.

Definition zero : F := f_of_nat 0.
Definition one : F := f_of_nat 1.

(** [np.array(rows)]: a list of equally long rows becomes a 2-D array; a
    ragged list is refused. *)
Definition array (rows : list (list F)) : outcome (list (list F)) :=
  match rows with
  | [] => Ret []
  | r :: rs =>
      if forallb (fun r' => Nat.eqb (List.length r') (List.length r)) rs
      then Ret rows
      else Raise "ValueError: inhomogeneous shape"
  end.

(** Element-wise binary operation on two rows of one length. *)
Fixpoint zip_with (g : F -> F -> F) (a b : list F) : list F :=
  match a, b with
  | x :: a', y :: b' => g x y :: zip_with g a' b'
  | _, _ => []
  end.

(** numpy adds a contiguous run of float64 by pairwise summation.  A run of
    fewer than 8 items is added in turn, from [-0.0], which leaves the first
    item as it is. *)
Definition sum_in_turn (l : list F) : F :=
  match l with
  | [] => zero
  | x :: r => fold_left f_add r x
  end.

(** A run of 8 to 128 items goes into eight running sums, item [i] into sum
    [i mod 8], as long as whole groups of eight remain. *)
Fixpoint add_groups (r : list F) (l : list F) : list F * list F :=
  match l with
  | a0 :: a1 :: a2 :: a3 :: a4 :: a5 :: a6 :: a7 :: l' =>
      add_groups (zip_with f_add r [a0; a1; a2; a3; a4; a5; a6; a7]) l'
  | _ => (r, l)
  end.

(** The eight sums are added as a balanced tree. *)
Definition sum_of_eight (r : list F) : F :=
  match r with
  | [r0; r1; r2; r3; r4; r5; r6; r7] =>
      f_add (f_add (f_add r0 r1) (f_add r2 r3))
            (f_add (f_add r4 r5) (f_add r6 r7))
  | _ => zero
  end.

(** The items left over, fewer than eight, are added to the tree's sum in
    turn. *)
Definition sum_unrolled (l : list F) : F :=
  let (r, rest) := add_groups (firstn 8 l) (skipn 8 l) in
  fold_left f_add rest (sum_of_eight r).

(** A longer run is cut in two near its middle, at a multiple of 8, and the
    sums of the halves are added.  [fuel] bounds the depth of the cuts; the
    length of the run is enough. *)
Fixpoint pairwise_sum (fuel : nat) (l : list F) : F :=
  let n := List.length l in
  if (n <? 8)%nat then sum_in_turn l
  else if (n <=? 128)%nat then sum_unrolled l
  else
    match fuel with
    | O => sum_unrolled l
    | S fuel' =>
        let n2 := (n / 2 - (n / 2) mod 8)%nat in
        f_add (pairwise_sum fuel' (firstn n2 l))
              (pairwise_sum fuel' (skipn n2 l))
    end.

(** [add.reduce] over a 1-D array: the pairwise sum is added to the identity
    0 the result starts from. *)
Definition sum (l : list F) : F :=
  f_add zero (pairwise_sum (List.length l) l).

(** [np.mean] of a 1-D array: the sum divided by the count. *)
Definition mean (l : list F) : F := f_div (sum l) (f_of_nat (List.length l)).

(** [add.reduce(axis=0)] over the rows of a 2-D array.  The rows are added
    one after the other into a row of zeros.  When the rows have a single
    item the array is one contiguous run, and is summed as a 1-D array. *)
Definition sum_axis0 (rows : list (list F)) : list F :=
  match rows with
  | [] => []
  | [_] :: _ => [sum (map (fun r => nth 0 r zero) rows)]
  | r :: _ => fold_left (zip_with f_add) rows (repeat zero (List.length r))
  end.

Definition div_count (n : nat) (l : list F) : list F :=
  map (fun s => f_div s (f_of_nat n)) l.

(** [np.mean(a, axis=0)] *)
Definition mean_axis0 (rows : list (list F)) : list F :=
  div_count (List.length rows) (sum_axis0 rows).

(** [np.var(a, axis=0)]: the mean of the squared deviations from the mean. *)
Definition var_axis0 (rows : list (list F)) : list F :=
  let arrmean := mean_axis0 rows in
  let x := map (fun r => zip_with f_sub r arrmean) rows in
  let x2 := map (map (fun v => f_mul v v)) x in
  div_count (List.length rows) (sum_axis0 x2).

(** [np.std(a, axis=0)] *)
Definition std_axis0 (rows : list (list F)) : list F :=
  map f_sqrt (var_axis0 rows).

(** [np.maximum] and [np.minimum] propagate NaN. *)
Definition maximum (x y : F) : F :=
  if f_is_nan x then x else if f_is_nan y then y
  else if f_ltb x y then y else x.

Definition minimum (x y : F) : F :=
  if f_is_nan x then x else if f_is_nan y then y
  else if f_ltb y x then y else x.

(** [np.max] and [np.min] of a 1-D array; an empty array has no identity. *)
Definition max (l : list F) : outcome F :=
  match l with
  | [] => Raise "ValueError: zero-size array to reduction operation maximum"
  | x :: r => Ret (fold_left maximum r x)
  end.

Definition min (l : list F) : outcome F :=
  match l with
  | [] => Raise "ValueError: zero-size array to reduction operation minimum"
  | x :: r => Ret (fold_left minimum r x)
  end.

(** [np.where(mask)[0]]: the indices at which the mask holds. *)
Fixpoint where_from (i : nat) (mask : list bool) : list nat :=
  match mask with
  | [] => []
  | b :: m => if b then i :: where_from (S i) m else where_from (S i) m
  end.

Definition where_ (mask : list bool) : list nat := where_from 0 mask.

(** [a > s] for an array and a scalar. *)
Definition gt_scalar (a : list F) (s : F) : list bool :=
  map (fun v => f_ltb s v) a.

Definition clip (x lo hi : F) : F := minimum (maximum x lo) hi.

(** [np.corrcoef(x, y)[0, 1]]: [np.cov] removes each row's mean, takes the
    inner products of the residuals and scales them by [1 / (N - 1)] (by
    [1 / 0.0] when [N <= 1]); [corrcoef] divides by the square roots of the
    diagonal and clips to [-1, 1]. *)
Definition corrcoef01 (x y : list F) : F :=
  let dx := map (fun v => f_sub v (mean x)) x in
  let dy := map (fun v => f_sub v (mean y)) y in
  let fact := f_of_nat (List.length x - 1) in
  let scale := f_div one fact in
  let c00 := f_mul (f_dot dx dx) scale in
  let c01 := f_mul (f_dot dx dy) scale in
  let c11 := f_mul (f_dot dy dy) scale in
  let r := f_div (f_div c01 (f_sqrt c00)) (f_sqrt c11) in
  clip r (f_sub zero one) one.

End Reductions.
End Np.

(** The rules of IEEE-754 for zero and NaN that the analysis of constant
    traces meets. *)
Class Float64Laws (F : Type) `{Float64 F} : Prop := {
  add_zero_zero : f_add Np.zero Np.zero = Np.zero;
  mul_zero_zero : f_mul Np.zero Np.zero = Np.zero;
  half_zero : f_div Np.zero (f_of_nat 2) = Np.zero;
  sqrt_zero : f_sqrt Np.zero = Np.zero;
  dot_zeros : forall n, f_dot (repeat Np.zero n) (repeat Np.zero n) = Np.zero;
  zero_div_zero : f_is_nan (f_div Np.zero Np.zero) = true;
  scaled_zero : forall k,
    f_mul Np.zero (f_div Np.one (f_of_nat k)) = Np.zero \/
    f_is_nan (f_mul Np.zero (f_div Np.one (f_of_nat k))) = true;
  nan_div : forall x y, f_is_nan x = true -> f_is_nan (f_div x y) = true;
  nan_add : forall x y, f_is_nan y = true -> f_is_nan (f_add x y) = true
}.
Arguments Float64Laws F {_}.

(** A binary64 value, by its specification, that is not below zero: its sign
    bit is clear, or it is NaN. *)
Definition unsigned (x : spec_float) : Prop :=
  match x with
  | S754_zero s | S754_infinity s | S754_finite s _ _ => s = false
  | S754_nan => True
  end.

(* ------------------------------------------------------------------ *)
(** ** Observable actions *)

(** The methods of [RealChipWhispererDemo], with their arguments. *)
Inductive method : Type :=
| Connect
| TestTargetCommunication
| CaptureRealTrace (input_data : list Z)
| CaptureMultipleTraces (num_traces : Z)
| AnalyzeTraces
| GeneratePlot (save_path : string)
| Disconnect.

(** How a call ended: with a value (and its truth value), or by raising. *)
Inductive status : Type :=
| Returned (truthy : bool)
| Raised.

(** Calls into the SDK, [time], numpy's [corrcoef] and matplotlib. *)
Inductive io_call : Type :=
| CwScope
| CwTarget
| DefaultSetup
| Flush
| SimpleserialWrite (cmd : string) (data : list Byte.byte)
| Sleep (seconds : Q)
| Read
| Arm
| Capture
| GetLastTrace
| ScopeDis
| TargetDis
| Corrcoef (i j : nat)
| PlotTraces
| Savefig (path : string).

Inductive event : Type :=
| Enter (m : method)
| Leave (m : method) (s : status)
| Io (c : io_call).

(** [bytearray(input_data)]: every item must be in [range(0, 256)]. *)
Definition byte_of_int (x : Z) : option Byte.byte :=
  if (0 <=? x)%Z then Byte.of_N (Z.to_N x) else None.

Fixpoint bytearray (input_data : list Z) : outcome (list Byte.byte) :=
  match input_data with
  | [] => Ret []
  | x :: r =>
      match byte_of_int x, bytearray r with
      | Some b, Ret bs => Ret (b :: bs)
      | _, _ => Raise "ValueError: byte must be in range(0, 256)"
      end
  end.

(** What [generate_plot] hands to matplotlib for the second chart. *)
Record band (F : Type) : Type := mkBand {
  band_mean : list F;
  band_std : list F;
  band_points : list nat
}.

(** The SDK of the capture hardware and the plotting library: each call takes
    the world to a new world and returns or raises. *)
Record Device (W F : Type) : Type := mkDevice {
  cw_scope : W -> outcome unit * W;
  cw_target : W -> outcome unit * W;
  scope_default_setup : W -> outcome unit * W;
  scope_arm : W -> outcome unit * W;
  scope_capture : W -> outcome unit * W;
  scope_get_last_trace : W -> outcome (option (list F)) * W;
  scope_dis : W -> outcome unit * W;
  target_flush : W -> outcome unit * W;
  target_simpleserial_write :
    string -> list Byte.byte -> W -> outcome unit * W;
  target_read : W -> outcome string * W;
  target_dis : W -> outcome unit * W;
  plt_plot_traces : list (list F) -> W -> outcome unit * W;
  plt_savefig : option (band F) -> string -> W -> outcome unit * W
}.

(** The [analysis] dictionary. *)
Record analysis (F : Type) : Type := mkAnalysis {
  num_traces : nat;
  trace_length : nat;
  max_power : F;
  min_power : F;
  power_range : F;
  interesting_points : nat;
  avg_correlation : F;
  mean_trace : list F;
  std_trace : list F;
  variance : list F
}.

(** The demo object and the world around it. *)
Record state (W F : Type) : Type := mkState {
  world : W;
  log : list event;
  scope : option unit;
  target : option unit;
  connected : bool;
  traces : list (list F)
}.

(** [RealChipWhispererDemo()] *)
Definition init {W F : Type} (w : W) : state W F :=
  {| world := w; log := []; scope := None; target := None;
     connected := false; traces := [] |}.

(* ------------------------------------------------------------------ *)
(** ** The monad of methods *)

Section Monad.
Context {W F : Type}.

Definition M (A : Type) : Type := state W F -> outcome A * state W F.

Definition ret {A} (a : A) : M A := fun s => (Ret a, s).

Definition bind {A B} (m : M A) (f : A -> M B) : M B :=
  fun s =>
    match m s with
    | (Ret a, s') => f a s'
    | (Raise e, s') => (Raise e, s')
    end.

Definition lift {A} (o : outcome A) : M A := fun s => (o, s).

(** [try: m except Exception: h] *)
Definition try_except {A} (m : M A) (h : M A) : M A :=
  fun s =>
    match m s with
    | (Ret a, s') => (Ret a, s')
    | (Raise _, s') => h s'
    end.

(** [try: m finally: fin] *)
Definition try_finally {A} (m : M A) (fin : M unit) : M A :=
  fun s =>
    let (r, s1) := m s in
    match fin s1 with
    | (Ret _, s2) => (r, s2)
    | (Raise e, s2) => (Raise e, s2)
    end.

Definition record (e : event) (s : state W F) : state W F :=
  {| world := world s; log := log s ++ [e]; scope := scope s;
     target := target s; connected := connected s; traces := traces s |}.

Definition emit (e : event) : M unit := fun s => (Ret tt, record e s).

(** A call into an external library. *)
Definition call {A} (c : io_call) (op : W -> outcome A * W) : M A :=
  fun s =>
    let (r, w) := op (world s) in
    (r, {| world := w; log := log s ++ [Io c]; scope := scope s;
           target := target s; connected := connected s;
           traces := traces s |}).

Definition status_of {A} (truthy : A -> bool) (r : outcome A) : status :=
  match r with
  | Ret a => Returned (truthy a)
  | Raise _ => Raised
  end.

(** A method body between the records of its entry and of its exit. *)
Definition traced {A} (m : method) (truthy : A -> bool) (body : M A) : M A :=
  fun s =>
    let (r, s') := body (record (Enter m) s) in
    (r, record (Leave m (status_of truthy r)) s').

Definition get_traces : M (list (list F)) := fun s => (Ret (traces s), s).

Definition set_traces (ts : list (list F)) : M unit :=
  fun s =>
    (Ret tt, {| world := world s; log := log s; scope := scope s;
                target := target s; connected := connected s;
                traces := ts |}).

Definition set_scope (h : option unit) : M unit :=
  fun s =>
    (Ret tt, {| world := world s; log := log s; scope := h;
                target := target s; connected := connected s;
                traces := traces s |}).

Definition set_target (h : option unit) : M unit :=
  fun s =>
    (Ret tt, {| world := world s; log := log s; scope := scope s;
                target := h; connected := connected s;
                traces := traces s |}).

Definition set_connected (b : bool) : M unit :=
  fun s =>
    (Ret tt, {| world := world s; log := log s; scope := scope s;
                target := target s; connected := b;
                traces := traces s |}).

(** [self.scope.f(...)] and [self.target.f(...)]: an attribute of [None]
    raises before the call is made. *)
Definition on_scope {A} (m : M A) : M A :=
  fun s =>
    match scope s with
    | Some _ => m s
    | None => (Raise "AttributeError: 'NoneType' object", s)
    end.

Definition on_target {A} (m : M A) : M A :=
  fun s =>
    match target s with
    | Some _ => m s
    | None => (Raise "AttributeError: 'NoneType' object", s)
    end.

Definition scope_call {A} (c : io_call) (op : W -> outcome A * W) : M A :=
  on_scope (call c op).

Definition target_call {A} (c : io_call) (op : W -> outcome A * W) : M A :=
  on_target (call c op).

(** [if self.scope: m] and [if self.target: m] *)
Definition if_scope (m : M unit) : M unit :=
  fun s =>
    match scope s with
    | Some _ => m s
    | None => (Ret tt, s)
    end.

Definition if_target (m : M unit) : M unit :=
  fun s =>
    match target s with
    | Some _ => m s
    | None => (Ret tt, s)
    end.

(** [for x in xs: body x] *)
Fixpoint for_each {A} (xs : list A) (body : A -> M unit) : M unit :=
  match xs with
  | [] => ret tt
  | x :: r => bind (body x) (fun _ => for_each r body)
  end.

(** [[f(x) for x in xs]] with [f] effectful. *)
Fixpoint collect {A B} (xs : list A) (f : A -> M B) : M (list B) :=
  match xs with
  | [] => ret []
  | x :: r => bind (f x) (fun y => bind (collect r f) (fun ys => ret (y :: ys)))
  end.

End Monad.

Arguments M : clear implicits.

Declare Scope demo_scope.
Delimit Scope demo_scope with demo.
Notation "x <- m ;; k" := (bind m (fun x => k))
  (at level 61, m at next level, right associativity) : demo_scope.
Notation "m ;; k" := (bind m (fun _ => k))
  (at level 61, right associativity) : demo_scope.

(** [range(n)] *)
Definition range (n : Z) : list Z := map Z.of_nat (seq 0 (Z.to_nat n)).

(* ------------------------------------------------------------------ *)
(** ** The methods of [RealChipWhispererDemo] *)

Section Demo.
Context {W F : Type} `{Float64 F}.
Variable dev : Device W F.

Local Open Scope demo_scope.

Definition is_some {A} (o : option A) : bool :=
  match o with Some _ => true | None => false end.

Definition connect : M W F bool :=
  traced Connect (fun b => b)
    (try_except
       (call CwScope (cw_scope dev) ;;
        set_scope (Some tt) ;;
        call CwTarget (cw_target dev) ;;
        set_target (Some tt) ;;
        scope_call DefaultSetup (scope_default_setup dev) ;;
        set_connected true ;;
        ret true)
       (ret false)).

(** The probe payload, [bytearray([0xAA] * 16)]. *)
Definition probe_payload : list Byte.byte := repeat Byte.xaa 16.

Definition test_target_communication : M W F bool :=
  traced TestTargetCommunication (fun b => b)
    (try_except
       (target_call Flush (target_flush dev) ;;
        target_call (SimpleserialWrite "p" probe_payload)
          (target_simpleserial_write dev "p" probe_payload) ;;
        emit (Io (Sleep (2 # 10))) ;;
        response <- target_call Read (target_read dev) ;;
        if (0 <? String.length response)%nat then ret true else ret false)
       (ret false)).

Definition capture_real_trace (input_data : list Z) : M W F (option (list F)) :=
  traced (CaptureRealTrace input_data) is_some
    (try_except
       (scope_call Arm (scope_arm dev) ;;
        data <- on_target (lift (bytearray input_data)) ;;
        call (SimpleserialWrite "p" data)
          (target_simpleserial_write dev "p" data) ;;
        scope_call Capture (scope_capture dev) ;;
        trace <- scope_call GetLastTrace (scope_get_last_trace dev) ;;
        ret trace)
       (ret None)).

(** The input of iteration [i]: [[i % 256] * 16]. *)
Definition input_of (i : Z) : list Z := repeat (i mod 256)%Z 16.

(** One turn of the capture loop.  The statistics that are printed for a
    captured trace call [np.min] and [np.max] on it. *)
Definition capture_iteration (i : Z) : M W F unit :=
  trace <- capture_real_trace (input_of i) ;;
  match trace with
  | Some t =>
      ts <- get_traces ;;
      set_traces (ts ++ [t]) ;;
      _ <- lift (Np.min t) ;;
      _ <- lift (Np.max t) ;;
      ret tt
  | None => ret tt
  end.

Definition capture_multiple_traces (num_traces : Z) : M W F bool :=
  traced (CaptureMultipleTraces num_traces) (fun b => b)
    (set_traces [] ;;
     for_each (range num_traces) capture_iteration ;;
     ts <- get_traces ;;
     ret (0 <? List.length ts)%nat).

(** The high-variance sample indices,
    [np.where(variance > mean_variance * 1.5)[0]]. *)
Definition high_variance_points (variance : list F) : list nat :=
  let mean_variance := Np.mean variance in
  Np.where_ (Np.gt_scalar variance (f_mul mean_variance f_lit_1_5)).

(** The index pairs [i < j] of the correlation loops, in loop order. *)
Definition trace_pairs (n : nat) : list (nat * nat) :=
  flat_map (fun i => map (fun j => (i, j)) (seq (S i) (n - S i))) (seq 0 n).

Definition analyze_traces : M W F (option (analysis F)) :=
  traced AnalyzeTraces is_some
    (ts <- get_traces ;;
     match ts with
     | [] => ret None
     | _ :: _ =>
         trace_array <- lift (Np.array ts) ;;
         let mean_trace := Np.mean_axis0 trace_array in
         let std_trace := Np.std_axis0 trace_array in
         max_power <- lift (Np.max mean_trace) ;;
         min_power <- lift (Np.min mean_trace) ;;
         let variance := Np.var_axis0 trace_array in
         let interesting_points := high_variance_points variance in
         avg_correlation <-
           (if (1 <? List.length ts)%nat then
              correlations <-
                collect (trace_pairs (List.length ts))
                  (fun ij =>
                     emit (Io (Corrcoef (fst ij) (snd ij))) ;;
                     ret (Np.corrcoef01 (nth (fst ij) ts [])
                                        (nth (snd ij) ts []))) ;;
              ret (match correlations with
                   | [] => Np.zero
                   | _ :: _ => Np.mean correlations
                   end)
            else ret Np.zero) ;;
         ret (Some {| num_traces := List.length ts;
                      trace_length := List.length mean_trace;
                      max_power := max_power;
                      min_power := min_power;
                      power_range := f_sub max_power min_power;
                      interesting_points := List.length interesting_points;
                      avg_correlation := avg_correlation;
                      mean_trace := mean_trace;
                      std_trace := std_trace;
                      variance := variance |})
     end).

Definition generate_plot (save_path : string) : M W F bool :=
  traced (GeneratePlot save_path) (fun b => b)
    (ts <- get_traces ;;
     match ts with
     | [] => ret false
     | _ :: _ =>
         call PlotTraces (plt_plot_traces dev (firstn 5 ts)) ;;
         stats <-
           (if (1 <? List.length ts)%nat then
              trace_array <- lift (Np.array ts) ;;
              let mean_trace := Np.mean_axis0 trace_array in
              let std_trace := Np.std_axis0 trace_array in
              let variance := Np.var_axis0 trace_array in
              ret (Some {| band_mean := mean_trace;
                           band_std := std_trace;
                           band_points := high_variance_points variance |})
            else ret None) ;;
         call (Savefig save_path) (plt_savefig dev stats save_path) ;;
         ret true
     end).

Definition default_save_path : string := "real_chipwhisperer_demo.png".

Definition run_demo : M W F bool :=
  ok <- connect ;;
  if negb ok then ret false else
  ok <- test_target_communication ;;
  if negb ok then ret false else
  ok <- capture_multiple_traces 5 ;;
  if negb ok then ret false else
  analysis <- analyze_traces ;;
  if negb (is_some analysis) then ret false else
  ok <- generate_plot default_save_path ;;
  if negb ok then ret false else
  ret true.

Definition disconnect : M W F unit :=
  traced Disconnect (fun _ => false)
    (try_except
       (if_scope (call ScopeDis (scope_dis dev)) ;;
        if_target (call TargetDis (target_dis dev)))
       (ret tt)).

(** [main()], started in world [w]. *)
Definition main_body : M W F unit :=
  try_finally (_ <- run_demo ;; ret tt) disconnect.

Definition main (w : W) : outcome unit * state W F := main_body (init w).

End Demo.

(* ------------------------------------------------------------------ *)
(** ** A scripted device *)

(** A mock of the hardware: [get_last_trace] replays a script of outcomes,
    each waveform given by its first sample and the rest; [read] gives a
    fixed reply, and opening the scope works or not. *)
Record mock (F : Type) : Type := mkMock {
  present : bool;
  reply : string;
  captures : list (outcome (option (F * list F)))
}.

Definition mock_ok {F} (w : mock F) : outcome unit * mock F := (Ret tt, w).

Definition waveform {F} (c : outcome (option (F * list F)))
    : outcome (option (list F)) :=
  match c with
  | Ret (Some (x, r)) => Ret (Some (x :: r))
  | Ret None => Ret None
  | Raise e => Raise e
  end.

Definition mock_device (F : Type) : Device (mock F) F :=
  {| cw_scope := fun w =>
       (if present w then Ret tt else Raise "OSError: no device", w);
     cw_target := mock_ok;
     scope_default_setup := mock_ok;
     scope_arm := mock_ok;
     scope_capture := mock_ok;
     scope_get_last_trace := fun w =>
       match captures w with
       | [] => (Raise "IOError: no capture", w)
       | c :: r =>
           (waveform c,
            {| present := present w; reply := reply w; captures := r |})
       end;
     scope_dis := mock_ok;
     target_flush := mock_ok;
     target_simpleserial_write := fun _ _ => mock_ok;
     target_read := fun w => (Ret (reply w), w);
     target_dis := mock_ok;
     plt_plot_traces := fun _ => mock_ok;
     plt_savefig := fun _ _ => mock_ok |}.

(** A demo object that is connected and holds the given traces. *)
Definition holding {W F : Type} (w : W) (ts : list (list F)) : state W F :=
  {| world := w; log := []; scope := Some tt; target := Some tt;
     connected := true; traces := ts |}.

Definition idle (F : Type) : mock F :=
  {| present := true; reply := "r00"; captures := [] |}.

(* ------------------------------------------------------------------ *)
(** ** Reading the log *)

(** The steps of the run sequence and the teardown; a single capture is an
    action inside the capture step. *)
Definition is_step_method (m : method) : bool :=
  match m with
  | CaptureRealTrace _ => false
  | _ => true
  end.

Definition is_step (e : event) : bool :=
  match e with
  | Enter m => is_step_method m
  | Leave m _ => is_step_method m
  | Io _ => false
  end.

Definition steps (l : list event) : list event := filter is_step l.

(** The inputs of the single captures that were attempted, in order. *)
Definition attempts (l : list event) : list (list Z) :=
  flat_map (fun e => match e with
                     | Enter (CaptureRealTrace i) => [i]
                     | _ => []
                     end) l.

(** The calls into external libraries, in order. *)
Definition io_calls (l : list event) : list io_call :=
  flat_map (fun e => match e with Io c => [c] | _ => [] end) l.

(** The run sequence of [run_demo]. *)
Definition run_sequence : list method :=
  [Connect; TestTargetCommunication; CaptureMultipleTraces 5;
   AnalyzeTraces; GeneratePlot default_save_path].

(** The log of a run that went through its first [k] steps and stopped in
    step [k] with status [st]. *)
Definition stopped_after (k : nat) (st : status) : list event :=
  flat_map (fun m => [Enter m; Leave m (Returned true)])
           (firstn k run_sequence)
  ++ [Enter (nth k run_sequence Connect); Leave (nth k run_sequence Connect) st]
  ++ [Enter Disconnect; Leave Disconnect (Returned false)].

(** The calls to [np.corrcoef] of an analysis of [n] traces. *)
Definition corrcoef_calls (n : nat) : list io_call :=
  if (1 <? n)%nat
  then map (fun ij => Corrcoef (fst ij) (snd ij)) (trace_pairs n)
  else [].

(** What [savefig] returns, as the result of [generate_plot]. *)
Definition saved (r : outcome unit) : outcome bool :=
  match r with
  | Ret _ => Ret true
  | Raise e => Raise e
  end.

(** The external calls of the probe, in program order. *)
Definition probe_calls : list io_call :=
  [Flush; SimpleserialWrite "p" (repeat Byte.xaa 16); Sleep (2 # 10); Read].

(** A program whose every run relates the state before to the state after. *)
Definition respects {W F A : Type}
    (R : state W F -> state W F -> Prop) (m : M W F A) : Prop :=
  forall s, R s (snd (m s)).

(** Only actions that are not steps are added to the log. *)
Definition adds_no_step {W F : Type} (s s' : state W F) : Prop :=
  exists evs, log s' = log s ++ evs /\ steps evs = [].

(** No single capture is entered. *)
Definition adds_no_attempt {W F : Type} (s s' : state W F) : Prop :=
  exists evs, log s' = log s ++ evs /\ attempts evs = [].

(** The TraceSet is the same. *)
Definition same_traces {W F : Type} (s s' : state W F) : Prop :=
  traces s' = traces s.

(** The TraceSet grew at its end, if it changed. *)
Definition traces_extended {W F : Type} (s s' : state W F) : Prop :=
  exists added, traces s' = traces s ++ added.

(** The state with another TraceSet. *)
Definition with_traces {W F : Type} (ts : list (list F)) (s : state W F)
    : state W F :=
  {| world := world s; log := log s; scope := scope s; target := target s;
     connected := connected s; traces := ts |}.

(* ------------------------------------------------------------------ *)
(** ** The analysis in the words of the specification *)

Section SpecWords.
Context {F : Type} `{Float64 F}.

(** The values all traces take at sample index [i]. *)
Definition column (i : nat) (ts : list (list F)) : list F :=
  map (fun t => nth i t Np.zero) ts.

(** The sum numpy forms of the values at one sample index, in traces of [L]
    samples: the values are added in turn to 0; for traces of a single
    sample they are one contiguous run and are added as a 1-D array is. *)
Definition sum_across (L : nat) (values : list F) : F :=
  if (L =? 1)%nat then Np.sum values else fold_left f_add values Np.zero.

(** The mean of one sample across the traces. *)
Definition sample_mean (L : nat) (values : list F) : F :=
  f_div (sum_across L values) (f_of_nat (List.length values)).

(** The variance of one sample across the traces: the mean squared
    deviation from the mean. *)
Definition sample_variance (L : nat) (values : list F) : F :=
  let m := sample_mean L values in
  sample_mean L (map (fun v => f_mul (f_sub v m) (f_sub v m)) values).

Definition samples_per_trace (ts : list (list F)) : nat :=
  List.length (hd [] ts).

Definition per_sample_variance (ts : list (list F)) : list F :=
  map (fun i => sample_variance (samples_per_trace ts) (column i ts))
      (seq 0 (samples_per_trace ts)).

(** The sample indices whose variance exceeds 1.5 times the average
    variance. *)
Definition spec_interesting_indices (ts : list (list F)) : list nat :=
  let average := Np.mean (per_sample_variance ts) in
  filter (fun i => f_ltb (f_mul average f_lit_1_5)
                         (sample_variance (samples_per_trace ts) (column i ts)))
         (seq 0 (samples_per_trace ts)).


(** Every trace has the same, positive number of samples. *)
Definition well_shaped (ts : list (list F)) : Prop :=
  (0 < samples_per_trace ts)%nat /\
  Forall (fun t => List.length t = samples_per_trace ts) ts.

(** A trace that holds one value throughout. *)
Definition constant_trace (c : F) (n : nat) : list F := repeat c n.

(** float64 arithmetic is exact on the constant [c] in traces of [L]
    samples: [c] is finite, so that [c - c] is zero, and neither the mean of
    the two values at one sample nor the mean of a row of [L] copies of [c]
    is rounded or overflows. *)
Record exact_on (c : F) (L : nat) : Prop := mkExact {
  cancels : f_sub c c = Np.zero;
  sample_mean_back : sample_mean L [c; c] = c;
  row_mean_back : Np.mean (constant_trace c L) = c
}.

(** The average of the pairwise correlation coefficients, as
    [analyze_traces] forms it. *)
Definition average_correlation (ts : list (list F)) : F :=
  if (1 <? List.length ts)%nat then
    match map (fun ij => Np.corrcoef01 (nth (fst ij) ts [])
                                       (nth (snd ij) ts []))
              (trace_pairs (List.length ts)) with
    | [] => Np.zero
    | c :: cs => Np.mean (c :: cs)
    end
  else Np.zero.

End SpecWords.

(* ------------------------------------------------------------------ *)
(** ** Traces in exact arithmetic *)

(** Sum, mean and variance of real samples. *)
Definition rsum (l : list R) : R := fold_right Rplus 0%R l.

Definition rmean (l : list R) : R := (rsum l / INR (List.length l))%R.




(* ------------------------------------------------------------------ *)
(** ** The capture loop seen from outside *)

Section Replay.
Context {W F : Type} `{Float64 F}.
Variable dev : Device W F.

(** The results of [capture_real_trace] on the inputs, one after the
    other. *)
Fixpoint replay (inputs : list (list Z)) (s : state W F)
    : list (option (list F)) * state W F :=
  match inputs with
  | [] => ([], s)
  | i :: r =>
      let (o, s1) := capture_real_trace dev i s in
      let (os, s2) := replay r s1 in
      (match o with Ret t => t | Raise _ => None end :: os, s2)
  end.

(** The captured traces among the results, in order. *)
Definition captured (results : list (option (list F))) : list (list F) :=
  flat_map (fun o => match o with Some t => [t] | None => [] end) results.

(** The state in which the capture loop starts. *)
Definition loop_start (n : Z) (s : state W F) : state W F :=
  record (Enter (CaptureMultipleTraces n)) (with_traces [] s).

(** No capture among the results read back a waveform of zero samples. *)
Definition with_samples (results : list (option (list F))) : Prop :=
  Forall (fun o => o <> Some []) results.

End Replay.

(* ------------------------------------------------------------------ *)
(** ** A device without samples *)

(** A device on which every call returns, and whose read-back is a waveform
    of zero samples. *)
Definition blank_device (F : Type) : Device unit F :=
  {| cw_scope := fun w => (Ret tt, w);
     cw_target := fun w => (Ret tt, w);
     scope_default_setup := fun w => (Ret tt, w);
     scope_arm := fun w => (Ret tt, w);
     scope_capture := fun w => (Ret tt, w);
     scope_get_last_trace := fun w => (Ret (Some []), w);
     scope_dis := fun w => (Ret tt, w);
     target_flush := fun w => (Ret tt, w);
     target_simpleserial_write := fun _ _ w => (Ret tt, w);
     target_read := fun w => (Ret "r"%string, w);
     target_dis := fun w => (Ret tt, w);
     plt_plot_traces := fun _ w => (Ret tt, w);
     plt_savefig := fun _ _ w => (Ret tt, w) |}.

(** The object before [connect]: it holds no handle. *)
Definition unconnected {W F : Type} (s : state W F) : Prop :=
  scope s = None /\ target s = None.

(* ------------------------------------------------------------------ *)
(** ** Frame reasoning *)

(** A relation between states that every action outside the TraceSet keeps:
    it is a preorder, and holds across a logged event that is [ok], an
    external call and an assignment to a handle or to [connected]. *)
Class Frame {W F : Type} (R : state W F -> state W F -> Prop)
    (ok : event -> Prop) : Prop := {
  frame_refl : forall s, R s s;
  frame_trans : forall a b c, R a b -> R b c -> R a c;
  frame_record : forall e s, ok e -> R s (record e s);
  frame_call : forall A c (op : W -> outcome A * W) s, R s (snd (call c op s));
  frame_scope : forall h s, R s (snd (set_scope h s));
  frame_target : forall h s, R s (snd (set_target h s));
  frame_connected : forall b s, R s (snd (set_connected b s))
}.

Section FrameRules.
Context {W F : Type} {R : state W F -> state W F -> Prop}
        {ok : event -> Prop} `{!Frame R ok}.

Lemma respects_ret A (a : A) : respects R (ret a).
Proof. intro s. apply frame_refl. Qed.

Lemma respects_lift A (o : outcome A) : respects R (lift o).
Proof. intro s. apply frame_refl. Qed.

Lemma respects_get_traces : respects R get_traces.
Proof. intro s. apply frame_refl. Qed.

Lemma respects_bind A B (m : M W F A) (f : A -> M W F B) :
  respects R m -> (forall a, respects R (f a)) -> respects R (bind m f).
Proof.
  intros Hm Hf s. unfold bind.
  specialize (Hm s). destruct (m s) as [[a | e] s1]; simpl in *.
  - eapply frame_trans; [exact Hm | apply Hf].
  - exact Hm.
Qed.

Lemma respects_try_except A (m h : M W F A) :
  respects R m -> respects R h -> respects R (try_except m h).
Proof.
  intros Hm Hh s. unfold try_except.
  specialize (Hm s). destruct (m s) as [[a | e] s1]; simpl in *.
  - exact Hm.
  - eapply frame_trans; [exact Hm | apply Hh].
Qed.

Lemma respects_emit e : ok e -> respects R (emit e).
Proof. intros He s. simpl. apply frame_record, He. Qed.

Lemma respects_call A c (op : W -> outcome A * W) : respects R (call c op).
Proof. intro s. apply frame_call. Qed.

Lemma respects_on_scope A (m : M W F A) :
  respects R m -> respects R (on_scope m).
Proof.
  intros Hm s. unfold on_scope. destruct (scope s); [apply Hm | apply frame_refl].
Qed.

Lemma respects_on_target A (m : M W F A) :
  respects R m -> respects R (on_target m).
Proof.
  intros Hm s. unfold on_target. destruct (target s); [apply Hm | apply frame_refl].
Qed.

Lemma respects_if_scope (m : M W F unit) :
  respects R m -> respects R (if_scope m).
Proof.
  intros Hm s. unfold if_scope. destruct (scope s); [apply Hm | apply frame_refl].
Qed.

Lemma respects_if_target (m : M W F unit) :
  respects R m -> respects R (if_target m).
Proof.
  intros Hm s. unfold if_target. destruct (target s); [apply Hm | apply frame_refl].
Qed.

Lemma respects_set_scope h : respects R (set_scope h).
Proof. intro s. apply frame_scope. Qed.

Lemma respects_set_target h : respects R (set_target h).
Proof. intro s. apply frame_target. Qed.

Lemma respects_set_connected b : respects R (set_connected b).
Proof. intro s. apply frame_connected. Qed.

Lemma respects_traced A m (truthy : A -> bool) (body : M W F A) :
  ok (Enter m) -> (forall st, ok (Leave m st)) ->
  respects R body -> respects R (traced m truthy body).
Proof.
  intros He Hl Hb s. unfold traced.
  specialize (Hb (record (Enter m) s)).
  destruct (body (record (Enter m) s)) as [r s1]; simpl in *.
  eapply frame_trans; [apply frame_record, He |].
  eapply frame_trans; [exact Hb | apply frame_record, Hl].
Qed.

Lemma respects_for_each A (xs : list A) (body : A -> M W F unit) :
  (forall x, respects R (body x)) -> respects R (for_each xs body).
Proof.
  intro Hb. induction xs as [| x r IH]; simpl.
  - apply respects_ret.
  - apply respects_bind; [apply Hb | intros _; exact IH].
Qed.

Lemma respects_collect A B (xs : list A) (f : A -> M W F B) :
  (forall x, respects R (f x)) -> respects R (collect xs f).
Proof.
  intro Hf. induction xs as [| x r IH]; simpl.
  - apply respects_ret.
  - apply respects_bind; [apply Hf | intros y].
    apply respects_bind; [exact IH | intros ys; apply respects_ret].
Qed.

End FrameRules.

(** One step of a frame proof, by the shape of the program. *)
Ltac frame_step :=
  first
    [ apply respects_ret
    | apply respects_lift
    | apply respects_get_traces
    | apply respects_call
    | apply respects_set_scope
    | apply respects_set_target
    | apply respects_set_connected
    | apply respects_on_scope
    | apply respects_on_target
    | apply respects_if_scope
    | apply respects_if_target
    | apply respects_try_except
    | apply respects_for_each; intros ?
    | apply respects_collect; intros ?
    | apply respects_bind; [| intros ?] ].

Ltac frame := repeat frame_step.

(* ------------------------------------------------------------------ *)
(** ** The three frames *)

Lemma steps_app (a b : list event) : steps (a ++ b) = steps a ++ steps b.
Proof. unfold steps. apply filter_app. Qed.

Lemma io_calls_app (a b : list event) :
  io_calls (a ++ b) = io_calls a ++ io_calls b.
Proof. unfold io_calls. apply flat_map_app. Qed.

Lemma attempts_app (a b : list event) :
  attempts (a ++ b) = attempts a ++ attempts b.
Proof. unfold attempts. apply flat_map_app. Qed.

#[export] Instance frame_no_step {W F : Type} :
  Frame (@adds_no_step W F) (fun e => is_step e = false).
Proof.
  split.
  - intro s. exists []. split; [now rewrite app_nil_r | reflexivity].
  - intros a b c [e1 [H1 S1]] [e2 [H2 S2]]. exists (e1 ++ e2). split.
    + now rewrite H2, H1, app_assoc.
    + now rewrite steps_app, S1, S2.
  - intros e s He. exists [e]. split; [reflexivity |].
    unfold steps. simpl. now rewrite He.
  - intros A c op s. unfold call. destruct (op (world s)) as [r w]. simpl.
    exists [Io c]. split; reflexivity.
  - intros h s. exists []. split; [simpl; now rewrite app_nil_r | reflexivity].
  - intros h s. exists []. split; [simpl; now rewrite app_nil_r | reflexivity].
  - intros b s. exists []. split; [simpl; now rewrite app_nil_r | reflexivity].
Qed.

#[export] Instance frame_same_traces {W F : Type} :
  Frame (@same_traces W F) (fun _ => True).
Proof.
  split; unfold same_traces; try reflexivity.
  - intros a b c H1 H2. now rewrite H2.
  - intros A c op s. unfold call. now destruct (op (world s)).
Qed.

#[export] Instance frame_traces_extended {W F : Type} :
  Frame (@traces_extended W F) (fun _ => True).
Proof.
  split; unfold traces_extended.
  - intro s. exists []. now rewrite app_nil_r.
  - intros a b c [x Hx] [y Hy]. exists (x ++ y). now rewrite Hy, Hx, app_assoc.
  - intros e s _. exists []. simpl. now rewrite app_nil_r.
  - intros A c op s. unfold call. destruct (op (world s)). exists []. simpl.
    now rewrite app_nil_r.
  - intros h s. exists []. simpl. now rewrite app_nil_r.
  - intros h s. exists []. simpl. now rewrite app_nil_r.
  - intros b s. exists []. simpl. now rewrite app_nil_r.
Qed.

(** A traced step whose body adds no step of its own contributes exactly its
    entry and its exit to the steps of the log. *)
Lemma traced_steps {W F A : Type} (m : method) (truthy : A -> bool)
    (body : M W F A) (s : state W F) :
  is_step_method m = true ->
  respects adds_no_step body ->
  steps (log (snd (traced m truthy body s))) =
  steps (log s) ++
    [Enter m; Leave m (status_of truthy (fst (traced m truthy body s)))].
Proof.
  intros Hm Hb. unfold traced.
  destruct (Hb (record (Enter m) s)) as [evs [Hl Hs]].
  destruct (body (record (Enter m) s)) as [r s1]. simpl in *.
  rewrite Hl, !steps_app, Hs. unfold steps. simpl. rewrite Hm.
  now rewrite app_nil_r, <- app_assoc.
Qed.

(* ------------------------------------------------------------------ *)
(** ** The empty TraceSet *)

(** C2: with an empty TraceSet, [analyze_traces] returns the falsy failure
    value ([False], here [None]) and [generate_plot] returns [False]; both
    return, neither raises. *)
Theorem empty_trace_set_reports_failure {W F : Type} `{Float64 F}
    (dev : Device W F) (w : W) (lg : list event) (sc tg : option unit)
    (cn : bool) (save_path : string) :
  fst (analyze_traces (mkState w lg sc tg cn (@nil (list F)))) = Ret None /\
  fst (generate_plot dev save_path (mkState w lg sc tg cn (@nil (list F))))
    = Ret false.
Proof. split; reflexivity. Qed.

(* ------------------------------------------------------------------ *)
(** ** The communication probe *)

(** Two runs of one call in one world have one result. *)
Ltac same_call :=
  cbn in *;
  repeat first
    [ match goal with
      | H : (_, _) = (_, _) |- _ => inversion H; subst; clear H
      end
    | match goal with
      | H1 : ?t = (_, _), H2 : ?t = (_, _) |- _ => rewrite H1 in H2
      end ];
  try discriminate.

Ltac probe_done :=
  cbn; rewrite !io_calls_app; cbn; rewrite ?app_nil_r, <- ?app_assoc;
  repeat split; try discriminate; try reflexivity.

(** C9: [test_target_communication] never raises; its external calls are an
    initial part of flush, write of the fixed 16-byte payload under command
    [p], the fixed sleep, read, in that order; and it returns [True] exactly
    when the whole exchange went through and the response that was read is
    not empty. *)
Theorem probe_succeeds_iff_response {W F : Type} (dev : Device W F)
    (s : state W F) :
  exists (b : bool) (k : nat),
    fst (test_target_communication dev s) = Ret b /\
    io_calls (log (snd (test_target_communication dev s))) =
      io_calls (log s) ++ firstn k probe_calls /\
    (b = true -> k = 4%nat) /\
    (b = true <->
     exists w1 w2 w3 response,
       target s <> None /\
       target_flush dev (world s) = (Ret tt, w1) /\
       target_simpleserial_write dev "p" (repeat Byte.xaa 16) w1
         = (Ret tt, w2) /\
       target_read dev w2 = (Ret response, w3) /\
       response <> ""%string).
Proof.
  unfold test_target_communication, traced, try_except, bind, target_call,
    on_target, call, emit, ret, probe_payload.
  cbn [record target world log fst snd].
  destruct (target s) as [h |] eqn:Ht.
  2:{ exists false, 0%nat. probe_done.
      intros (w1 & w2 & w3 & r & Hn & _). now elim Hn. }
  destruct (target_flush dev (world s)) as [[[] | e] w1] eqn:Hf.
  2:{ exists false, 1%nat. probe_done.
      intros (x1 & x2 & x3 & r & _ & Hx & _). same_call. }
  cbn [record target world log fst snd].
  destruct (target_simpleserial_write dev "p" (repeat Byte.xaa 16) w1)
    as [[[] | e] w2] eqn:Hw.
  2:{ exists false, 2%nat. probe_done.
      intros (x1 & x2 & x3 & r & _ & Hx & Hy & _). same_call. }
  cbn [record target world log fst snd].
  destruct (target_read dev w2) as [[r | e] w3] eqn:Hr.
  2:{ exists false, 4%nat. probe_done.
      intros (x1 & x2 & x3 & r & _ & Hx & Hy & Hz & _). same_call. }
  cbn [record target world log fst snd].
  destruct r as [| c r].
  - exists false, 4%nat. probe_done.
    intros (x1 & x2 & x3 & r & _ & Hx & Hy & Hz & Hne). same_call.
    now elim Hne.
  - exists true, 4%nat. probe_done.
    intros _. exists w1, w2, w3, (String c r).
    repeat split; try assumption; discriminate.
Qed.

(* ------------------------------------------------------------------ *)
(** ** A single trace *)

(** C10: for a TraceSet of exactly one trace, [analyze_traces] makes no call
    to [np.corrcoef] (no external call at all), and the analysis it returns
    has the constant 0 as its average correlation.  It returns an analysis
    whenever the trace has samples; for a trace without samples [np.max]
    raises, and no analysis exists. *)
Theorem single_trace_correlation_is_zero {W F : Type} `{Float64 F}
    (w : W) (lg : list event) (sc tg : option unit) (cn : bool)
    (t : list F) :
  let run := analyze_traces (mkState w lg sc tg cn [t]) in
  io_calls (log (snd run)) = io_calls lg /\
  match fst run with
  | Ret (Some a) =>
      t <> [] /\ avg_correlation a = Np.zero /\ num_traces a = 1%nat
  | Ret None => False
  | Raise _ => t = []
  end.
Proof.
  cbv zeta. destruct t as [| x [| y r]].
  - split; [| reflexivity]. cbn. rewrite !io_calls_app. cbn.
    now rewrite !app_nil_r.
  - split.
    + cbn. rewrite !io_calls_app. cbn. now rewrite !app_nil_r.
    + cbn. repeat split. discriminate.
  - split.
    + cbn. rewrite !io_calls_app. cbn. now rewrite !app_nil_r.
    + cbn. repeat split. discriminate.
Qed.

(** A run of C10 on a one-trace set of three float64 samples. *)
Example single_trace_run :
  exists a s',
    analyze_traces
      (mkState (idle float) [] (Some tt) (Some tt) true
         [[1%float; 2%float; 4%float]])
      = (Ret (Some a), s') /\
    avg_correlation a = 0%float /\
    mean_trace a = [1%float; 2%float; 4%float] /\
    io_calls (log s') = [].
Proof.
  eexists. eexists. split; [vm_compute; reflexivity |].
  repeat split.
Qed.

(* ------------------------------------------------------------------ *)
(** ** Steps of the methods *)

(** A frame proof across a conditional splits on its test. *)
Ltac frame_case :=
  match goal with
  | |- respects _ (if ?c then _ else _) => destruct c
  | |- respects _ (match ?c with _ => _ end) => destruct c
  end.

Section StepLogs.
Context {W F : Type} `{Float64 F}.
Variable dev : Device W F.

Lemma capture_real_trace_quiet (input_data : list Z) :
  respects adds_no_step (capture_real_trace dev input_data).
Proof.
  unfold capture_real_trace, scope_call, target_call.
  apply respects_traced; [reflexivity | reflexivity |]. frame.
Qed.

Lemma set_traces_quiet (ts : list (list F)) :
  respects (W := W) adds_no_step (set_traces ts).
Proof. intro s. exists []. simpl. now rewrite app_nil_r. Qed.

Lemma capture_iteration_quiet (i : Z) :
  respects adds_no_step (capture_iteration dev i).
Proof.
  unfold capture_iteration.
  apply respects_bind; [apply capture_real_trace_quiet | intros [t |]].
  - apply respects_bind; [frame | intro ts].
    apply respects_bind; [apply set_traces_quiet | intros _]. frame.
  - frame.
Qed.

Lemma connect_steps (s : state W F) :
  steps (log (snd (connect dev s))) =
  steps (log s) ++
    [Enter Connect;
     Leave Connect (status_of (fun b => b) (fst (connect dev s)))].
Proof.
  unfold connect. apply traced_steps; [reflexivity |].
  unfold scope_call. frame.
Qed.

Lemma test_target_communication_steps (s : state W F) :
  steps (log (snd (test_target_communication dev s))) =
  steps (log s) ++
    [Enter TestTargetCommunication;
     Leave TestTargetCommunication
       (status_of (fun b => b) (fst (test_target_communication dev s)))].
Proof.
  unfold test_target_communication. apply traced_steps; [reflexivity |].
  unfold target_call. frame.
  - apply respects_emit. reflexivity.
  - frame_case; frame.
Qed.

Lemma capture_multiple_traces_steps (n : Z) (s : state W F) :
  steps (log (snd (capture_multiple_traces dev n s))) =
  steps (log s) ++
    [Enter (CaptureMultipleTraces n);
     Leave (CaptureMultipleTraces n)
       (status_of (fun b => b) (fst (capture_multiple_traces dev n s)))].
Proof.
  unfold capture_multiple_traces. apply traced_steps; [reflexivity |].
  apply respects_bind; [apply set_traces_quiet | intros _].
  apply respects_bind; [| intros _; frame].
  apply respects_for_each. intro i. apply capture_iteration_quiet.
Qed.

Lemma analyze_traces_steps (s : state W F) :
  steps (log (snd (analyze_traces s))) =
  steps (log s) ++
    [Enter AnalyzeTraces;
     Leave AnalyzeTraces (status_of is_some (fst (analyze_traces s)))].
Proof.
  unfold analyze_traces. apply traced_steps; [reflexivity |].
  apply respects_bind; [frame | intros [| t ts]]; [frame |].
  frame.
  frame_case; frame.
  apply respects_emit. reflexivity.
Qed.

Lemma generate_plot_steps (save_path : string) (s : state W F) :
  steps (log (snd (generate_plot dev save_path s))) =
  steps (log s) ++
    [Enter (GeneratePlot save_path);
     Leave (GeneratePlot save_path)
       (status_of (fun b => b) (fst (generate_plot dev save_path s)))].
Proof.
  unfold generate_plot. apply traced_steps; [reflexivity |].
  apply respects_bind; [frame | intros [| t ts]]; [frame |].
  frame.
  frame_case; frame.
Qed.

(** [disconnect] swallows whatever its calls raise. *)
Lemma disconnect_returns (s : state W F) : fst (disconnect dev s) = Ret tt.
Proof.
  unfold disconnect, traced, try_except, bind, if_scope, if_target, ret.
  destruct (scope (record (Enter Disconnect) s)).
  - destruct (call ScopeDis (scope_dis dev) (record (Enter Disconnect) s))
      as [[[] | e] s1]; [| reflexivity].
    destruct (target s1); [| reflexivity].
    now destruct (call TargetDis (target_dis dev) s1) as [[[] | e] s2].
  - destruct (target (record (Enter Disconnect) s)); [| reflexivity].
    now destruct (call TargetDis (target_dis dev) (record (Enter Disconnect) s))
      as [[[] | e] s2].
Qed.

Lemma disconnect_steps (s : state W F) :
  steps (log (snd (disconnect dev s))) =
  steps (log s) ++ [Enter Disconnect; Leave Disconnect (Returned false)].
Proof.
  pose proof (disconnect_returns s) as Hr. revert Hr.
  unfold disconnect at 1 2.
  intro Hr. rewrite traced_steps; [| reflexivity |].
  - unfold disconnect in Hr. now rewrite Hr.
  - frame.
Qed.

End StepLogs.

(* ------------------------------------------------------------------ *)
(** ** The run sequence *)

(** The end of a run: [disconnect] is run in the state the run stopped in;
    the steps logged so far are in the hypotheses. *)
Ltac teardown dev k :=
  cbv beta iota zeta;
  match goal with
  | |- context [disconnect dev ?s] =>
      let Hr := fresh "Hr" in
      let Hs := fresh "Hs" in
      pose proof (disconnect_returns dev s) as Hr;
      pose proof (disconnect_steps dev s) as Hs;
      destruct (disconnect dev s) as [[[] | ?] ?]; cbn [fst snd] in Hr, Hs;
      [| discriminate Hr];
      eexists k, _; cbn [fst snd]; rewrite Hs;
      repeat match goal with L : steps _ = _ |- _ => rewrite L; clear L end;
      cbn [status_of is_some];
      split; [lia |];
      split; [reflexivity |];
      split; [first [discriminate | reflexivity] |];
      split; [intros ? ?; first [discriminate | reflexivity]
             | intro; apply disconnect_returns ]
  end.

(** C5: in every execution of [main] the steps that run are an initial part
    of connect, probe, capture, analyze, plot; every step before the last
    one that ran returned a truthy value; a step that fails (returns a falsy
    value or raises) is the last one that runs; then [disconnect] runs,
    exactly once and also when [connect] failed, and returns without
    raising: an exception leaves [main] only if the last step raised it. *)
Theorem main_fail_fast_then_disconnect {W F : Type} `{Float64 F}
    (dev : Device W F) (w : W) :
  exists (k : nat) (st : status),
    (k < 5)%nat /\
    steps (log (snd (main dev w))) = stopped_after k st /\
    (st = Returned true -> k = 4%nat) /\
    (forall e, fst (main dev w) = Raise e -> st = Raised) /\
    (forall s : state W F, fst (disconnect dev s) = Ret tt).
Proof.
  unfold main, main_body, try_finally, run_demo, bind, ret.
  pose proof (connect_steps dev (init w)) as L1.
  destruct (connect dev (init w)) as [[b1 | e1] s1]; cbn [fst snd] in L1;
    [destruct b1; cbn [negb] |].
  2, 3: teardown dev 0%nat.
  pose proof (test_target_communication_steps dev s1) as L2.
  destruct (test_target_communication dev s1) as [[b2 | e2] s2];
    cbn [fst snd] in L2; [destruct b2; cbn [negb] |].
  2, 3: teardown dev 1%nat.
  pose proof (capture_multiple_traces_steps dev 5 s2) as L3.
  destruct (capture_multiple_traces dev 5 s2) as [[b3 | e3] s3];
    cbn [fst snd] in L3; [destruct b3; cbn [negb] |].
  2, 3: teardown dev 2%nat.
  pose proof (analyze_traces_steps s3) as L4.
  destruct (analyze_traces s3) as [[a4 | e4] s4]; cbn [fst snd] in L4;
    [destruct a4 as [a4 |]; cbn [negb is_some] |].
  2, 3: teardown dev 3%nat.
  pose proof (generate_plot_steps dev default_save_path s4) as L5.
  destruct (generate_plot dev default_save_path s4) as [[b5 | e5] s5];
    cbn [fst snd] in L5; [destruct b5; cbn [negb] |].
  all: teardown dev 4%nat.
Qed.

(* ------------------------------------------------------------------ *)
(** ** The capture loop *)

#[export] Instance frame_no_attempt {W F : Type} :
  Frame (@adds_no_attempt W F) (fun e => attempts [e] = []).
Proof.
  split.
  - intro s. exists []. split; [now rewrite app_nil_r | reflexivity].
  - intros a b c [e1 [H1 S1]] [e2 [H2 S2]]. exists (e1 ++ e2). split.
    + now rewrite H2, H1, app_assoc.
    + now rewrite attempts_app, S1, S2.
  - intros e s He. exists [e]. split; [reflexivity | exact He].
  - intros A c op s. unfold call. destruct (op (world s)) as [r w]. simpl.
    exists [Io c]. split; reflexivity.
  - intros h s. exists []. split; [simpl; now rewrite app_nil_r | reflexivity].
  - intros h s. exists []. split; [simpl; now rewrite app_nil_r | reflexivity].
  - intros b s. exists []. split; [simpl; now rewrite app_nil_r | reflexivity].
Qed.

Lemma with_traces_twice {W F : Type} (a b : list (list F)) (s : state W F) :
  with_traces a (with_traces b s) = with_traces a s.
Proof. reflexivity. Qed.

Lemma with_traces_same {W F : Type} (s : state W F) :
  with_traces (traces s) s = s.
Proof. now destruct s. Qed.

Section CaptureLoop.
Context {W F : Type} `{Float64 F}.
Variable dev : Device W F.

(** Every path through a single capture, by the outcomes of its calls. *)
Ltac capture_paths :=
  unfold capture_real_trace, traced, try_except, bind, scope_call,
    on_scope, on_target, call, lift, ret;
  cbn [record with_traces scope target world log traces connected fst snd];
  repeat match goal with
         | |- context [match ?x with _ => _ end] =>
             lazymatch x with
             | context [match _ with _ => _ end] => fail
             | _ => destruct x eqn:?
             end;
             cbn [record with_traces scope target world log traces connected
                  fst snd status_of is_some] in *
         end.

Lemma capture_real_trace_returns (input_data : list Z) (s : state W F) :
  exists o, fst (capture_real_trace dev input_data s) = Ret o.
Proof. capture_paths; eexists; reflexivity. Qed.

(** A single capture neither reads nor writes the TraceSet. *)
Lemma capture_real_trace_frame (ts : list (list F)) (input_data : list Z)
    (s : state W F) :
  capture_real_trace dev input_data (with_traces ts s) =
  (fst (capture_real_trace dev input_data s),
   with_traces ts (snd (capture_real_trace dev input_data s))).
Proof. capture_paths; reflexivity. Qed.

Lemma capture_real_trace_same_traces (input_data : list Z) :
  respects same_traces (capture_real_trace dev input_data).
Proof.
  unfold capture_real_trace, scope_call.
  apply respects_traced; [exact I | intro; exact I |]. frame.
Qed.

Lemma capture_real_trace_attempts (input_data : list Z) (s : state W F) :
  attempts (log (snd (capture_real_trace dev input_data s))) =
  attempts (log s) ++ [input_data].
Proof.
  unfold capture_real_trace, traced.
  assert (Hb : respects (W := W) (F := F) adds_no_attempt
            (try_except
               (bind (scope_call Arm (scope_arm dev)) (fun _ =>
                bind (on_target (lift (bytearray input_data))) (fun data =>
                bind (call (SimpleserialWrite "p" data)
                        (target_simpleserial_write dev "p" data)) (fun _ =>
                bind (scope_call Capture (scope_capture dev)) (fun _ =>
                bind (scope_call GetLastTrace (scope_get_last_trace dev))
                  (fun trace => ret trace))))))
               (ret None))).
  { unfold scope_call. frame. }
  destruct (Hb (record (Enter (CaptureRealTrace input_data)) s))
    as [evs [Hl Hs]].
  match goal with
  | |- context [let (_, _) := ?b in _] => destruct b as [r s1]
  end.
  cbn [fst snd log record] in *. rewrite Hl, !attempts_app, Hs. cbn.
  now rewrite !app_nil_r.
Qed.

Lemma replay_frame (ts : list (list F)) (inputs : list (list Z))
    (s : state W F) :
  replay dev inputs (with_traces ts s) =
  (fst (replay dev inputs s), with_traces ts (snd (replay dev inputs s))).
Proof.
  revert s. induction inputs as [| i r IH]; intro s; [reflexivity |].
  cbn [replay]. rewrite capture_real_trace_frame.
  destruct (capture_real_trace dev i s) as [o s1]. cbn [fst snd].
  rewrite IH. now destruct (replay dev r s1) as [os s2].
Qed.

Lemma replay_length (inputs : list (list Z)) (s : state W F) :
  List.length (fst (replay dev inputs s)) = List.length inputs.
Proof.
  revert s. induction inputs as [| i r IH]; intro s; [reflexivity |].
  cbn [replay]. destruct (capture_real_trace dev i s) as [o s1].
  specialize (IH s1). destruct (replay dev r s1) as [os s2].
  cbn in *. now rewrite IH.
Qed.

Lemma replay_same_traces (inputs : list (list Z)) (s : state W F) :
  traces (snd (replay dev inputs s)) = traces s.
Proof.
  revert s. induction inputs as [| i r IH]; intro s; [reflexivity |].
  cbn [replay]. pose proof (capture_real_trace_same_traces i s) as Hs.
  destruct (capture_real_trace dev i s) as [o s1].
  specialize (IH s1). destruct (replay dev r s1) as [os s2].
  cbn in *. unfold same_traces in Hs. now rewrite IH.
Qed.

Lemma replay_attempts (inputs : list (list Z)) (s : state W F) :
  attempts (log (snd (replay dev inputs s))) = attempts (log s) ++ inputs.
Proof.
  revert s. induction inputs as [| i r IH]; intro s.
  - cbn. now rewrite app_nil_r.
  - cbn [replay]. pose proof (capture_real_trace_attempts i s) as Ha.
    destruct (capture_real_trace dev i s) as [o s1].
    specialize (IH s1). destruct (replay dev r s1) as [os s2].
    cbn [fst snd] in *. rewrite IH, Ha, <- app_assoc. reflexivity.
Qed.

(** The loop, when no capture reads back a waveform without samples: it runs
    to its end, and leaves the state of the replay with the captured traces
    appended. *)
Lemma capture_loop_replay (xs : list Z) (s : state W F) :
  with_samples (fst (replay dev (map input_of xs) s)) ->
  for_each xs (capture_iteration dev) s =
  (Ret tt,
   with_traces
     (traces s ++ captured (fst (replay dev (map input_of xs) s)))
     (snd (replay dev (map input_of xs) s))).
Proof.
  revert s. induction xs as [| x r IH]; intros s Hw.
  - cbn. now rewrite app_nil_r, with_traces_same.
  - cbn [for_each map replay] in *. unfold bind at 1.
    unfold capture_iteration at 1. unfold bind at 1.
    destruct (capture_real_trace_returns (input_of x) s) as [o Ho].
    pose proof (capture_real_trace_same_traces (input_of x) s) as Hs.
    destruct (capture_real_trace dev (input_of x) s) as [r0 s1].
    cbn [fst snd] in *. unfold same_traces in Hs. subst r0.
    assert (Hw' : o <> Some [] /\
                  with_samples (fst (replay dev (map input_of r) s1))).
    { destruct (replay dev (map input_of r) s1) as [os s2]. cbn [fst] in *.
      unfold with_samples in *. inversion Hw; subst. now split. }
    destruct Hw' as [Ht Hr]. clear Hw.
    destruct o as [t |].
    + destruct t as [| v t]; [now elim Ht |].
      unfold bind, get_traces, set_traces, lift, ret. cbn [Np.min Np.max].
      change {| world := world s1; log := log s1; scope := scope s1;
                target := target s1; connected := connected s1;
                traces := traces s1 ++ [v :: t] |}
        with (with_traces (traces s1 ++ [v :: t]) s1).
      rewrite IH by (rewrite replay_frame; exact Hr).
      rewrite replay_frame. cbn [fst snd traces with_traces captured flat_map].
      destruct (replay dev (map input_of r) s1) as [os s2]. cbn [fst snd].
      rewrite with_traces_twice, Hs, <- app_assoc. reflexivity.
    + unfold ret. rewrite IH by exact Hr.
      destruct (replay dev (map input_of r) s1) as [os s2].
      cbn [fst snd captured flat_map app]. now rewrite Hs.
Qed.

(** The whole of [capture_multiple_traces] in terms of the replay. *)
Lemma capture_multiple_traces_replay (n : Z) (s : state W F) :
  let run := replay dev (map input_of (range n)) (loop_start n s) in
  with_samples (fst run) ->
  capture_multiple_traces dev n s =
  (Ret (0 <? List.length (captured (fst run)))%nat,
   record (Leave (CaptureMultipleTraces n)
             (Returned (0 <? List.length (captured (fst run)))%nat))
     (with_traces (captured (fst run)) (snd run))).
Proof.
  cbv zeta. intro Hw. unfold capture_multiple_traces, traced.
  unfold bind at 1. unfold set_traces at 1.
  change {| world := world (record (Enter (CaptureMultipleTraces n)) s);
            log := log (record (Enter (CaptureMultipleTraces n)) s);
            scope := scope (record (Enter (CaptureMultipleTraces n)) s);
            target := target (record (Enter (CaptureMultipleTraces n)) s);
            connected := connected (record (Enter (CaptureMultipleTraces n)) s);
            traces := [] |}
    with (loop_start n s).
  unfold bind at 1. rewrite (capture_loop_replay _ _ Hw).
  reflexivity.
Qed.

End CaptureLoop.

Lemma some_captured {F : Type} (results : list (option (list F))) :
  existsb is_some results = (0 <? List.length (captured results))%nat.
Proof.
  induction results as [| [t |] r IH]; [reflexivity | reflexivity | exact IH].
Qed.

Lemma captured_length {F : Type} (results : list (option (list F))) :
  List.length (captured results) = List.length (filter is_some results).
Proof.
  induction results as [| [t |] r IH]; [reflexivity | | exact IH].
  change (S (List.length (captured r)) = S (List.length (filter is_some r))).
  now rewrite IH.
Qed.

Lemma all_captured {F : Type} (results : list (option (list F))) :
  forallb is_some results = true ->
  List.length (captured results) = List.length results.
Proof.
  induction results as [| [t |] r IH]; [reflexivity | | discriminate].
  intro Hr. change (S (List.length (captured r)) = S (List.length r)).
  now rewrite IH.
Qed.

(** C1, as amended: when no capture reads back a waveform without samples,
    [capture_multiple_traces(n)] with [n >= 0] makes exactly [n] single
    captures, the [i]-th with the input [[i % 256] * 16]; the TraceSet it
    leaves is the list of the captures that were not [None], in the order of
    the iterations; and it returns [True] exactly when some capture
    succeeded. *)
Theorem capture_multiple_traces_attempts {W F : Type} `{Float64 F}
    (dev : Device W F) (n : Z) (s : state W F) :
  (0 <= n)%Z ->
  let inputs := map input_of (range n) in
  let results := fst (replay dev inputs (loop_start n s)) in
  let s' := snd (capture_multiple_traces dev n s) in
  with_samples results ->
  inputs = map (fun i => repeat (Z.of_nat i mod 256)%Z 16) (seq 0 (Z.to_nat n))
  /\ Z.of_nat (List.length results) = n
  /\ attempts (log s') = attempts (log s) ++ inputs
  /\ traces s' = captured results
  /\ fst (capture_multiple_traces dev n s) = Ret (existsb is_some results).
Proof.
  intros Hn. cbv zeta. intro Hw.
  rewrite (capture_multiple_traces_replay dev n s Hw). cbn [fst snd].
  split; [| split; [| split; [| split]]].
  - unfold range. rewrite map_map. reflexivity.
  - rewrite replay_length, length_map. unfold range.
    rewrite length_map, length_seq. lia.
  - cbn [log record with_traces]. rewrite attempts_app, replay_attempts.
    cbn [log record loop_start with_traces]. rewrite attempts_app. cbn.
    now rewrite !app_nil_r.
  - reflexivity.
  - now rewrite some_captured.
Qed.

(** C1 as amended, on a connected object in front of a scripted device:
    three iterations, of which the first and the third read back a waveform
    of two samples and the second reads back [None]. *)
Lemma capture_multiple_traces_attempts_witness :
  let dev := mock_device float in
  let n := 3%Z in
  let s : state (mock float) float :=
    holding {| present := true; reply := "r";
               captures := [Ret (Some (1%float, [2%float])); Ret None;
                            Ret (Some (3%float, [4%float]))] |} [] in
  let inputs := map input_of (range n) in
  let results := fst (replay dev inputs (loop_start n s)) in
  let s' := snd (capture_multiple_traces dev n s) in
  results = [Some [1%float; 2%float]; None; Some [3%float; 4%float]] /\
  (inputs = map (fun i => repeat (Z.of_nat i mod 256)%Z 16) (seq 0 (Z.to_nat n))
   /\ Z.of_nat (List.length results) = n
   /\ attempts (log s') = attempts (log s) ++ inputs
   /\ traces s' = captured results
   /\ fst (capture_multiple_traces dev n s) = Ret (existsb is_some results)).
Proof.
  cbv zeta. split; [vm_compute; reflexivity |].
  apply (@capture_multiple_traces_attempts _ _ _ (mock_device float) 3%Z
           (holding {| present := true; reply := "r";
                       captures := [Ret (Some (1%float, [2%float])); Ret None;
                                    Ret (Some (3%float, [4%float]))] |} [])).
  - lia.
  - vm_compute. repeat (constructor; [discriminate |]). constructor.
Defined.

(** C1, as stated, fails when a waveform without samples is read back: on
    the device whose waveforms are empty, [capture_multiple_traces(3)] makes
    one capture attempt, not three, and raises instead of returning. *)
Lemma empty_waveform_ends_capture_run :
  let s : state unit float := holding tt [] in
  let run := capture_multiple_traces (blank_device float) 3 s in
  attempts (log (snd run)) = [repeat 0%Z 16] /\
  fst run = Raise "ValueError: zero-size array to reduction operation minimum".
Proof. cbv zeta. split; vm_compute; reflexivity. Qed.

(** C4, as amended: when no capture reads back a waveform without samples,
    after [capture_multiple_traces(5)] the TraceSet is as long as the number
    of the five captures that were not [None], and has length 5 when all
    five succeeded. *)
Theorem five_captures_trace_set_length {W F : Type} `{Float64 F}
    (dev : Device W F) (s : state W F) :
  let results := fst (replay dev (map input_of (range 5)) (loop_start 5 s)) in
  let s' := snd (capture_multiple_traces dev 5 s) in
  with_samples results ->
  List.length results = 5%nat
  /\ List.length (traces s') = List.length (filter is_some results)
  /\ (forallb is_some results = true -> List.length (traces s') = 5%nat).
Proof.
  cbv zeta. intro Hw.
  rewrite (capture_multiple_traces_replay dev 5 s Hw).
  cbn [snd traces record with_traces].
  assert (Hl : List.length
                 (fst (replay dev (map input_of (range 5)) (loop_start 5 s)))
               = 5%nat) by (rewrite replay_length; reflexivity).
  split; [exact Hl | split].
  - apply captured_length.
  - intro Hall. now rewrite all_captured, Hl.
Qed.

(** C4 as amended, on a connected object in front of a scripted device that
    yields the same trace of three samples five times: all five captures
    succeed, and the TraceSet has length 5. *)
Lemma five_captures_trace_set_length_witness :
  let dev := mock_device float in
  let s : state (mock float) float :=
    holding {| present := true; reply := "r";
               captures := repeat (Ret (Some (1%float, [2%float; 3%float]))) 5 |}
            [] in
  let results := fst (replay dev (map input_of (range 5)) (loop_start 5 s)) in
  let s' := snd (capture_multiple_traces dev 5 s) in
  (forallb is_some results = true /\ List.length (traces s') = 5%nat) /\
  (List.length results = 5%nat
   /\ List.length (traces s') = List.length (filter is_some results)
   /\ (forallb is_some results = true -> List.length (traces s') = 5%nat)).
Proof.
  cbv zeta. split; [split; vm_compute; reflexivity |].
  apply (@five_captures_trace_set_length _ _ _ (mock_device float)
           (holding {| present := true; reply := "r";
                       captures :=
                         repeat (Ret (Some (1%float, [2%float; 3%float]))) 5 |}
                    [])).
  vm_compute. repeat (constructor; [discriminate |]). constructor.
Defined.

(** C4, as stated, fails for a fixed trace without samples: on the device
    whose waveforms are empty each of the five captures would return a trace
    that is not [None], yet the run raises in its first iteration and leaves
    a TraceSet of length 1. *)
Lemma fixed_empty_trace_leaves_one :
  let s : state unit float := holding tt [] in
  let results :=
    fst (replay (blank_device float) (map input_of (range 5))
           (loop_start 5 s)) in
  let run := capture_multiple_traces (blank_device float) 5 s in
  forallb is_some results = true /\
  List.length (filter is_some results) = 5%nat /\
  List.length (traces (snd run)) = 1%nat /\
  fst run = Raise "ValueError: zero-size array to reduction operation minimum".
Proof. cbv zeta. repeat split; vm_compute; reflexivity. Qed.

(* ------------------------------------------------------------------ *)
(** ** Mutations of the TraceSet *)

Section TraceSet.
Context {W F : Type} `{Float64 F}.
Variable dev : Device W F.

Lemma capture_iteration_extends (i : Z) :
  respects traces_extended (capture_iteration dev i).
Proof.
  intro s. unfold capture_iteration, bind at 1.
  pose proof (capture_real_trace_same_traces dev (input_of i) s) as Hs.
  destruct (capture_real_trace dev (input_of i) s) as [[[t |] | e] s1];
    unfold same_traces in Hs; cbn [snd] in Hs.
  - exists [t]. unfold bind, get_traces, set_traces, lift, ret.
    destruct (Np.min t); [destruct (Np.max t) |]; cbn; now rewrite Hs.
  - exists []. cbn. now rewrite Hs, app_nil_r.
  - exists []. cbn. now rewrite Hs, app_nil_r.
Qed.

Lemma capture_multiple_traces_restarts (n : Z) (s : state W F) :
  traces (snd (capture_multiple_traces dev n s)) =
  traces (snd (for_each (range n) (capture_iteration dev) (loop_start n s))).
Proof.
  unfold capture_multiple_traces, traced, bind at 1, set_traces at 1.
  change {| world := world (record (Enter (CaptureMultipleTraces n)) s);
            log := log (record (Enter (CaptureMultipleTraces n)) s);
            scope := scope (record (Enter (CaptureMultipleTraces n)) s);
            target := target (record (Enter (CaptureMultipleTraces n)) s);
            connected := connected (record (Enter (CaptureMultipleTraces n)) s);
            traces := [] |}
    with (loop_start n s).
  unfold bind at 1.
  now destruct (for_each (range n) (capture_iteration dev) (loop_start n s))
    as [[[] | e] s1].
Qed.

End TraceSet.

(** C8, as amended: [connect], [test_target_communication],
    [capture_real_trace], [analyze_traces], [generate_plot] and [disconnect]
    leave the TraceSet as it is; [capture_multiple_traces] starts from an
    empty TraceSet, whatever was stored before, and every iteration of its
    loop, and so every run of iterations, only appends to the end. *)
Theorem trace_set_append_only_within_a_run {W F : Type} `{Float64 F}
    (dev : Device W F) :
  respects same_traces (connect dev)
  /\ respects same_traces (test_target_communication dev)
  /\ (forall input_data, respects same_traces (capture_real_trace dev input_data))
  /\ respects (W := W) same_traces analyze_traces
  /\ (forall save_path, respects same_traces (generate_plot dev save_path))
  /\ respects same_traces (disconnect dev)
  /\ (forall i, respects traces_extended (capture_iteration dev i))
  /\ (forall xs, respects traces_extended (for_each xs (capture_iteration dev)))
  /\ (forall n (s : state W F),
        traces (loop_start n s) = [] /\
        traces (snd (capture_multiple_traces dev n s)) =
        traces (snd (for_each (range n) (capture_iteration dev)
                       (loop_start n s)))).
Proof.
  repeat apply conj.
  - unfold connect, scope_call.
    apply respects_traced; [exact I | intro; exact I |]. frame.
  - unfold test_target_communication, target_call.
    apply respects_traced; [exact I | intro; exact I |]. frame.
    + now apply respects_emit.
    + frame_case; frame.
  - intro i. apply capture_real_trace_same_traces.
  - unfold analyze_traces.
    apply respects_traced; [exact I | intro; exact I |].
    apply respects_bind; [frame | intros [| t ts]]; [frame |].
    frame. frame_case; frame. now apply respects_emit.
  - intro p. unfold generate_plot.
    apply respects_traced; [exact I | intro; exact I |].
    apply respects_bind; [frame | intros [| t ts]]; [frame |].
    frame. frame_case; frame.
  - unfold disconnect.
    apply respects_traced; [exact I | intro; exact I |]. frame.
  - intro i. apply capture_iteration_extends.
  - intro xs. apply respects_for_each. intro i. apply capture_iteration_extends.
  - intros n s. split; [reflexivity | apply capture_multiple_traces_restarts].
Qed.

(** C8, as stated, fails: a second capture run drops what the TraceSet held.
    With one trace stored, [capture_multiple_traces(0)] leaves none. *)
Lemma capture_run_discards_stored_traces :
  ~ respects traces_extended
      (capture_multiple_traces (mock_device float) 0) .
Proof.
  intro Hr.
  destruct (Hr (holding (idle float) [[1%float]])) as [added Ha].
  cbn in Ha. discriminate Ha.
Qed.

(* ------------------------------------------------------------------ *)
(** ** Reductions along axis 0, column by column *)

Section Columns.
Context {F : Type} `{Float64 F}.

Lemma zip_with_length (g : F -> F -> F) (a b : list F) :
  List.length a = List.length b ->
  List.length (Np.zip_with g a b) = List.length a.
Proof.
  revert b. induction a as [| x a IH]; intros [| y b] Hl;
    try discriminate; [reflexivity |].
  cbn. f_equal. apply IH. now inversion Hl.
Qed.

Lemma zip_with_nth (g : F -> F -> F) (a b : list F) (i : nat) (d : F) :
  List.length a = List.length b -> (i < List.length a)%nat ->
  nth i (Np.zip_with g a b) d = g (nth i a d) (nth i b d).
Proof.
  revert b i. induction a as [| x a IH]; intros [| y b] i Hl Hi;
    try discriminate; cbn in *; [lia |].
  destruct i as [| i]; [reflexivity |]. apply IH; [now inversion Hl | lia].
Qed.

(** Folding rows of length [n] into a row of length [n], entry by entry. *)
Lemma fold_rows (g : F -> F -> F) (n : nat) (rs : list (list F))
    (r : list F) :
  List.length r = n -> Forall (fun t => List.length t = n) rs ->
  List.length (fold_left (Np.zip_with g) rs r) = n /\
  forall i, (i < n)%nat ->
    nth i (fold_left (Np.zip_with g) rs r) Np.zero =
    fold_left g (column i rs) (nth i r Np.zero).
Proof.
  revert r. induction rs as [| t rs IH]; intros r Hr Hrs.
  - split; [exact Hr | reflexivity].
  - inversion Hrs as [| ? ? Ht Hrs' Heq]. clear Heq.
    assert (Hz : List.length (Np.zip_with g r t) = n).
    { rewrite zip_with_length; congruence. }
    destruct (IH (Np.zip_with g r t) Hz Hrs') as [Hl Hn].
    split; [exact Hl |]. intros i Hi. cbn [fold_left column map].
    rewrite Hn by exact Hi. f_equal. apply zip_with_nth; [congruence | lia].
Qed.

Lemma column_length (i : nat) (ts : list (list F)) :
  List.length (column i ts) = List.length ts.
Proof. apply length_map. Qed.

(** The sum along axis 0 is, at each sample, the sum across the traces. *)
Lemma sum_axis0_columns (n : nat) (t : list F) (ts : list (list F)) :
  Forall (fun r => List.length r = n) (t :: ts) ->
  List.length (Np.sum_axis0 (t :: ts)) = n /\
  forall i, (i < n)%nat ->
    nth i (Np.sum_axis0 (t :: ts)) Np.zero = sum_across n (column i (t :: ts)).
Proof.
  intro Hs. assert (Ht : List.length t = n) by (now inversion Hs).
  destruct t as [| x [| y t']].
  - cbn in Ht. subst n. split; [| intros i Hi; lia].
    now destruct (@fold_rows f_add 0 ([] :: ts) [] eq_refl Hs).
  - cbn in Ht. subst n. split; [reflexivity |].
    intros [| i] Hi; [reflexivity | lia].
  - destruct (@fold_rows f_add n ((x :: y :: t') :: ts) (repeat Np.zero n))
      as [Hl Hn]; [apply repeat_length | exact Hs |].
    unfold Np.sum_axis0. rewrite Ht. split; [exact Hl |].
    intros i Hi. rewrite (Hn i Hi), nth_repeat. unfold sum_across.
    subst n. reflexivity.
Qed.

Lemma sum_axis0_length (n : nat) (t : list F) (ts : list (list F)) :
  Forall (fun r => List.length r = n) (t :: ts) ->
  List.length (Np.sum_axis0 (t :: ts)) = n.
Proof. intro Hs. now destruct (sum_axis0_columns Hs). Qed.

Lemma sum_axis0_nth (n : nat) (t : list F) (ts : list (list F)) (i : nat) :
  Forall (fun r => List.length r = n) (t :: ts) -> (i < n)%nat ->
  nth i (Np.sum_axis0 (t :: ts)) Np.zero = sum_across n (column i (t :: ts)).
Proof. intros Hs Hi. now destruct (sum_axis0_columns Hs) as [_ Hn]; apply Hn. Qed.

Lemma div_count_nth (k : nat) (l : list F) (i : nat) :
  (i < List.length l)%nat ->
  nth i (Np.div_count k l) Np.zero = f_div (nth i l Np.zero) (f_of_nat k).
Proof.
  intro Hi. unfold Np.div_count.
  rewrite (nth_indep _ Np.zero (f_div Np.zero (f_of_nat k)))
    by (now rewrite length_map).
  apply (map_nth (fun s => f_div s (f_of_nat k))).
Qed.

Lemma mean_axis0_length (n : nat) (t : list F) (ts : list (list F)) :
  Forall (fun r => List.length r = n) (t :: ts) ->
  List.length (Np.mean_axis0 (t :: ts)) = n.
Proof.
  intro Hs. unfold Np.mean_axis0, Np.div_count.
  now rewrite length_map, (sum_axis0_length Hs).
Qed.

(** The mean along axis 0 is, at each sample, the mean across the traces. *)
Lemma mean_axis0_nth (n : nat) (t : list F) (ts : list (list F)) (i : nat) :
  Forall (fun r => List.length r = n) (t :: ts) -> (i < n)%nat ->
  nth i (Np.mean_axis0 (t :: ts)) Np.zero = sample_mean n (column i (t :: ts)).
Proof.
  intros Hs Hi. unfold Np.mean_axis0.
  rewrite div_count_nth by (now rewrite (sum_axis0_length Hs)).
  rewrite (sum_axis0_nth Hs Hi). unfold sample_mean. now rewrite column_length.
Qed.

Lemma column_map (g : list F -> list F) (k : F -> F) (i : nat)
    (ts : list (list F)) :
  (forall t, In t ts -> nth i (g t) Np.zero = k (nth i t Np.zero)) ->
  column i (map g ts) = map k (column i ts).
Proof.
  intro Hg. unfold column. rewrite !map_map. apply map_ext_in. exact Hg.
Qed.

Lemma sample_variance_unfold (L : nat) (l : list F) :
  sample_variance L l =
  f_div (sum_across L (map (fun v => f_mul (f_sub v (sample_mean L l))
                                           (f_sub v (sample_mean L l))) l))
        (f_of_nat (List.length l)).
Proof.
  unfold sample_variance. cbv zeta. unfold sample_mean at 1.
  now rewrite length_map.
Qed.

(** The variance along axis 0 is, at each sample, the variance across the
    traces. *)
Lemma var_axis0_nth (n : nat) (t : list F) (ts : list (list F)) (i : nat) :
  Forall (fun r => List.length r = n) (t :: ts) -> (i < n)%nat ->
  nth i (Np.var_axis0 (t :: ts)) Np.zero =
  sample_variance n (column i (t :: ts)).
Proof.
  intros Hs Hi. unfold Np.var_axis0. cbv zeta.
  set (arrmean := Np.mean_axis0 (t :: ts)).
  assert (Hm : List.length arrmean = n) by (apply mean_axis0_length, Hs).
  set (dev := fun r => Np.zip_with f_sub r arrmean).
  set (sq := fun v : F => f_mul v v).
  assert (Hx : Forall (fun r => List.length r = n)
                 (map (map sq) (map dev (t :: ts)))).
  { rewrite map_map. apply Forall_map. revert Hs. apply Forall_impl.
    intros r Hr. unfold dev. rewrite length_map, zip_with_length; congruence. }
  assert (Hc : column i (map (map sq) (map dev (t :: ts))) =
               map (fun v => sq (f_sub v (sample_mean n (column i (t :: ts)))))
                   (column i (t :: ts))).
  { rewrite map_map. apply column_map. intros r Hr.
    assert (Hl : List.length r = n).
    { rewrite Forall_forall in Hs. now apply Hs. }
    rewrite (nth_indep _ Np.zero (sq Np.zero)).
    2:{ unfold dev. rewrite length_map, zip_with_length; congruence. }
    rewrite (map_nth sq). unfold dev.
    rewrite zip_with_nth by congruence.
    unfold arrmean. now rewrite (mean_axis0_nth Hs Hi). }
  cbn [map] in Hx, Hc |- *.
  rewrite div_count_nth by (now rewrite (sum_axis0_length Hx)).
  rewrite (sum_axis0_nth Hx Hi), Hc, sample_variance_unfold, column_length.
  reflexivity.
Qed.

Lemma var_axis0_length (n : nat) (t : list F) (ts : list (list F)) :
  Forall (fun r => List.length r = n) (t :: ts) ->
  List.length (Np.var_axis0 (t :: ts)) = n.
Proof.
  intro Hs. unfold Np.var_axis0. cbv zeta.
  assert (Hm : List.length (Np.mean_axis0 (t :: ts)) = n)
    by (apply mean_axis0_length, Hs).
  unfold Np.div_count. rewrite length_map.
  assert (Hx : Forall (fun r => List.length r = n)
                 (map (map (fun v => f_mul v v))
                    (map (fun r => Np.zip_with f_sub r
                                     (Np.mean_axis0 (t :: ts))) (t :: ts)))).
  { rewrite map_map. apply Forall_map. revert Hs. apply Forall_impl.
    intros r Hr. rewrite length_map, zip_with_length; congruence. }
  cbn [map] in Hx |- *. exact (sum_axis0_length Hx).
Qed.

(** [np.var(axis=0)] is the list of the per-sample variances. *)
Lemma var_axis0_per_sample (t : list F) (ts : list (list F)) :
  Forall (fun r => List.length r = List.length t) (t :: ts) ->
  Np.var_axis0 (t :: ts) = per_sample_variance (t :: ts).
Proof.
  intro Hs. unfold per_sample_variance, samples_per_trace. cbn [hd].
  apply (nth_ext _ _ Np.zero Np.zero).
  - now rewrite length_map, length_seq, (var_axis0_length Hs).
  - intros i Hi. rewrite (var_axis0_length Hs) in Hi.
    rewrite (var_axis0_nth Hs Hi).
    rewrite (nth_indep _ Np.zero
               ((fun j => sample_variance (List.length t) (column j (t :: ts)))
                  0%nat))
      by (now rewrite length_map, length_seq).
    rewrite (map_nth (fun j => sample_variance (List.length t)
                                 (column j (t :: ts)))).
    now rewrite seq_nth.
Qed.

Lemma where_from_seq (g : nat -> bool) (k n : nat) :
  Np.where_from k (map g (seq k n)) = filter g (seq k n).
Proof.
  revert k. induction n as [| n IH]; intro k; [reflexivity |].
  cbn. rewrite IH. reflexivity.
Qed.

(** The indices [np.where] selects are the indices of the specification. *)
Lemma high_variance_points_spec (t : list F) (ts : list (list F)) :
  Forall (fun r => List.length r = List.length t) (t :: ts) ->
  high_variance_points (Np.var_axis0 (t :: ts)) =
  spec_interesting_indices (t :: ts).
Proof.
  intro Hs. unfold high_variance_points, spec_interesting_indices.
  cbv zeta. rewrite (var_axis0_per_sample Hs).
  set (threshold := f_mul (Np.mean (per_sample_variance (t :: ts))) f_lit_1_5).
  unfold Np.where_, Np.gt_scalar, per_sample_variance.
  rewrite map_map. apply where_from_seq.
Qed.

End Columns.

(* ------------------------------------------------------------------ *)
(** ** What [analyze_traces] returns *)

Section Analysis.
Context {W F : Type} `{Float64 F}.

(** The correlation loops never raise: they log one [corrcoef] call per pair
    and return the coefficients in loop order. *)
Lemma collect_emit (A B : Type) (e : A -> event) (g : A -> B) (xs : list A)
    (s : state W F) :
  exists s',
    collect xs (fun x => bind (emit (e x)) (fun _ => ret (g x))) s =
    (Ret (map g xs), s').
Proof.
  revert s. induction xs as [| x r IH]; intro s.
  - eexists. reflexivity.
  - cbn [collect map]. unfold bind at 1 2, emit at 1, ret at 1.
    destruct (IH (record (e x) s)) as [s' Hs']. unfold bind at 1.
    rewrite Hs'. eexists. reflexivity.
Qed.

Lemma array_rectangular (t : list F) (ts : list (list F)) :
  Forall (fun r => List.length r = List.length t) (t :: ts) ->
  Np.array (t :: ts) = Ret (t :: ts).
Proof.
  intro Hs. unfold Np.array.
  replace (forallb (fun r' => Nat.eqb (List.length r') (List.length t)) ts)
    with true; [reflexivity |].
  symmetry. apply forallb_forall. intros r Hr. apply Nat.eqb_eq.
  inversion Hs as [| ? ? _ Hts]. rewrite Forall_forall in Hts. now apply Hts.
Qed.

Lemma array_ragged (t : list F) (ts : list (list F)) (rows : list (list F)) :
  Np.array (t :: ts) = Ret rows ->
  Forall (fun r => List.length r = List.length t) (t :: ts).
Proof.
  unfold Np.array.
  destruct (forallb (fun r' => Nat.eqb (List.length r') (List.length t)) ts)
    eqn:Hf; [intros _ | discriminate].
  constructor; [reflexivity |]. apply Forall_forall. intros r Hr.
  apply Nat.eqb_eq. rewrite forallb_forall in Hf. now apply Hf.
Qed.

(** On a TraceSet of equally long traces with samples, the analysis is
    returned, and holds the reductions of the whole array. *)
Lemma analyze_traces_returns (w : W) (lg : list event) (sc tg : option unit)
    (cn : bool) (t : list F) (ts : list (list F)) :
  Forall (fun r => List.length r = List.length t) (t :: ts) ->
  t <> [] ->
  exists a s',
    analyze_traces (mkState w lg sc tg cn (t :: ts)) = (Ret (Some a), s') /\
    num_traces a = List.length (t :: ts) /\
    mean_trace a = Np.mean_axis0 (t :: ts) /\
    std_trace a = Np.std_axis0 (t :: ts) /\
    variance a = Np.var_axis0 (t :: ts) /\
    interesting_points a =
      List.length (high_variance_points (Np.var_axis0 (t :: ts))) /\
    avg_correlation a = average_correlation (t :: ts).
Proof.
  intros Hs Ht.
  assert (Hm : List.length (Np.mean_axis0 (t :: ts)) = List.length t)
    by (apply mean_axis0_length, Hs).
  destruct (Np.mean_axis0 (t :: ts)) as [| m ms] eqn:Em.
  { destruct t; [now elim Ht | discriminate Hm]. }
  unfold analyze_traces, traced, average_correlation.
  unfold bind at 1. unfold get_traces at 1.
  cbn [traces record fst snd].
  unfold bind at 1, lift at 1. rewrite (array_rectangular Hs).
  rewrite Em. unfold bind at 1, lift at 1. cbn [Np.max].
  unfold bind at 1, lift at 1. cbn [Np.min].
  unfold bind at 1.
  destruct (1 <? List.length (t :: ts))%nat.
  - unfold bind at 1.
    match goal with
    | |- context [collect ?xs (fun ij => bind (emit (@?e ij)) (fun _ => ret (@?g ij))) ?s] =>
        destruct (collect_emit e g xs s) as [s' Hc]; rewrite Hc
    end.
    unfold ret.
    destruct (map _ (trace_pairs (List.length (t :: ts)))) as [| c cs];
      do 2 eexists; repeat split; reflexivity.
  - unfold ret. do 2 eexists. repeat split; reflexivity.
Qed.

End Analysis.



(** The count in that run is 1: only the third sample varies. *)
Example interesting_points_run :
  spec_interesting_indices
    [[1; 2; 3; 4; 5; 6; 7; 8]; [1; 2; 9; 4; 5; 6; 7; 8];
     [1; 2; 3; 4; 5; 6; 7; 8]]%float
  = [2%nat].
Proof. vm_compute. reflexivity. Qed.

(* ------------------------------------------------------------------ *)
(** ** The rules for zero and NaN in binary64 and in exact arithmetic *)

(** A binary64 value is NaN exactly when its specification is. *)

Lemma is_nan_spec (x : float) :
  PrimFloat.is_nan x = true <-> Prim2SF x = S754_nan.
Proof.
  unfold PrimFloat.is_nan. rewrite eqb_spec.
  destruct (Prim2SF x) as [s | s | | s m e]; unfold SFeqb, SFcompare.
  - split; [discriminate | discriminate].
  - destruct s; split; discriminate.
  - split; reflexivity.
  - rewrite Z.compare_refl, Pos.compare_cont_refl.
    destruct s; split; discriminate.
Qed.

(** Rounding keeps a clear sign bit. *)
Lemma binary_round_aux_unsigned (m : Z) (e : Z) (l : location) :
  unsigned (binary_round_aux prec emax false m e l).
Proof.
  unfold binary_round_aux.
  destruct (shr_fexp prec emax m e l) as [mrs' e'].
  destruct (shr_fexp prec emax _ e' loc_Exact) as [mrs'' e''].
  destruct (shr_m mrs''); [reflexivity | | exact I].
  destruct (Z.leb e'' (emax - prec)); reflexivity.
Qed.

(** A count, its reciprocal and zero times the reciprocal: no sign bit
    appears. *)
Lemma float_of_nat_unsigned (k : nat) : unsigned (Prim2SF (float_of_nat k)).
Proof.
  induction k as [| k IH]; [vm_compute; reflexivity |].
  cbn [float_of_nat]. rewrite add_spec.
  change (Prim2SF 1%float) with (S754_finite false 4503599627370496 (-52)).
  destruct (Prim2SF (float_of_nat k)) as [s | s | | s m e];
    cbn [unsigned] in IH; subst; unfold SF64add, SFadd.
  - reflexivity.
  - reflexivity.
  - exact I.
  - cbn [cond_Zopp].
    match goal with
    | |- context [binary_normalize _ _ (Zpos ?a + Zpos ?b)%Z _ _] =>
        change (Zpos a + Zpos b)%Z with (Zpos (a + b))
    end.
    unfold binary_normalize, binary_round.
    destruct (shl_align _ _ _) as [mz ez]. apply binary_round_aux_unsigned.
Qed.

Lemma reciprocal_unsigned (x : float) :
  unsigned (Prim2SF x) -> unsigned (Prim2SF (1 / x)%float).
Proof.
  intro Hx. rewrite div_spec.
  change (Prim2SF 1%float) with (S754_finite false 4503599627370496 (-52)).
  destruct (Prim2SF x) as [s | s | | s m e]; cbn in Hx |- *; subst;
    try exact I; try reflexivity.
  unfold SF64div, SFdiv. cbn [xorb].
  destruct (SFdiv_core_binary _ _ _ _ _ _) as [[mz ez] lz].
  apply binary_round_aux_unsigned.
Qed.

Lemma zero_times_unsigned (x : float) :
  unsigned (Prim2SF x) ->
  (0 * x)%float = 0%float \/ PrimFloat.is_nan (0 * x)%float = true.
Proof.
  intro Hx.
  assert (E : Prim2SF (0 * x)%float = S754_zero false \/
              Prim2SF (0 * x)%float = S754_nan).
  { rewrite mul_spec. change (Prim2SF 0%float) with (S754_zero false).
    destruct (Prim2SF x) as [s | s | | s m e]; cbn in Hx |- *; subst; auto. }
  destruct E as [E | E].
  - left. apply Prim2SF_inj. rewrite E. reflexivity.
  - right. now apply is_nan_spec.
Qed.

Lemma dot_zeros_prim (n : nat) :
  f_dot (repeat 0%float n) (repeat 0%float n) = 0%float.
Proof.
  cbn [f_dot float64_prim]. unfold products_in_turn.
  induction n as [| n IH]; [reflexivity |]. cbn [repeat combine fold_left fst snd].
  change (0 + 0 * 0)%float with 0%float. exact IH.
Qed.

#[export] Instance float64_prim_laws : Float64Laws float.
Proof.
  split.
  - vm_compute. reflexivity.
  - vm_compute. reflexivity.
  - vm_compute. reflexivity.
  - vm_compute. reflexivity.
  - exact dot_zeros_prim.
  - vm_compute. reflexivity.
  - intro k. change (@Np.zero float _) with 0%float.
    change (@Np.one float _) with 1%float.
    apply zero_times_unsigned, reciprocal_unsigned, float_of_nat_unsigned.
  - intros x y Hx. apply is_nan_spec in Hx. apply is_nan_spec.
    cbn [f_div float64_prim]. rewrite div_spec, Hx. reflexivity.
  - intros x y Hy. apply is_nan_spec in Hy. apply is_nan_spec.
    cbn [f_add float64_prim]. rewrite add_spec, Hy.
    now destruct (Prim2SF x).
Qed.


Lemma dot_zeros_exact (n : nat) :
  f_dot (repeat (XR 0) n) (repeat (XR 0) n) = XR 0.
Proof.
  cbn [f_dot float64_exact]. unfold products_in_turn.
  induction n as [| n IH]; [reflexivity |]. cbn [repeat combine fold_left fst snd xlift2].
  replace (0 + 0 * 0)%R with 0%R by ring. exact IH.
Qed.

#[export] Instance float64_exact_laws : Float64Laws xreal.
Proof.
  assert (H2 : INR 2 <> 0%R) by (cbn; lra).
  split; change (@Np.zero xreal _) with (XR 0);
    change (@Np.one xreal _) with (XR (INR 1)).
  - cbn. f_equal. ring.
  - cbn. f_equal. ring.
  - cbn [f_div f_of_nat float64_exact xdiv].
    destruct (Req_dec_T (INR 2) 0) as [E | _]; [now elim H2 |].
    f_equal. field. exact H2.
  - cbn [f_sqrt float64_exact xsqrt].
    destruct (Rlt_dec 0 0) as [Hl | _]; [lra |]. f_equal. apply sqrt_0.
  - exact dot_zeros_exact.
  - cbn [f_div float64_exact xdiv f_is_nan].
    destruct (Req_dec_T 0 0) as [_ | Hn]; [reflexivity | now elim Hn].
  - intro k. cbn [f_div f_mul f_of_nat float64_exact xdiv].
    destruct (Req_dec_T (INR k) 0) as [_ | _]; [now right |].
    left. cbn. f_equal. ring.
  - intros x y Hx. destruct x; [discriminate | reflexivity].
  - intros x y Hy. destruct y; [discriminate |]. now destruct x.
Qed.

(* ------------------------------------------------------------------ *)
(** ** Pairwise summation has fuel enough *)

(** The cuts of [pairwise_sum] shorten the run, so that any fuel that is at
    least the length of the run gives the same sum: the fuel [Np.sum] gives
    never runs out. *)
Lemma pairwise_sum_fuel {F : Type} `{Float64 F} (f1 f2 : nat) (l : list F) :
  (List.length l <= f1)%nat -> (List.length l <= f2)%nat ->
  Np.pairwise_sum f1 l = Np.pairwise_sum f2 l.
Proof.
  revert f2 l. induction f1 as [| f1 IH]; intros f2 l H1 H2.
  - destruct l; [| cbn in H1; lia]. now destruct f2.
  - destruct f2 as [| f2]; [destruct l; [reflexivity | cbn in H2; lia] |].
    cbn [Np.pairwise_sum].
    destruct (List.length l <? 8)%nat; [reflexivity |].
    destruct (List.length l <=? 128)%nat eqn:E; [reflexivity |].
    apply Nat.leb_gt in E.
    set (n := List.length l) in *.
    pose proof (Nat.Div0.mul_div_le n 2) as A.
    pose proof (Nat.mod_upper_bound (n / 2) 8 ltac:(discriminate)) as B.
    pose proof (Nat.Div0.mod_le (n / 2) 8) as C.
    assert (D : (64 <= n / 2)%nat) by (apply Nat.div_le_lower_bound; lia).
    f_equal; apply IH; rewrite ?length_firstn, ?length_skipn; fold n; lia.
Qed.

(* ------------------------------------------------------------------ *)
(** ** Two identical constant traces *)

Section ConstantTraces.
Context {F : Type} `{Float64 F} {laws : Float64Laws F}.

Lemma zip_with_repeat (g : F -> F -> F) (a b : F) (n : nat) :
  Np.zip_with g (repeat a n) (repeat b n) = repeat (g a b) n.
Proof. induction n as [| n IH]; [reflexivity |]. cbn. now rewrite IH. Qed.

Lemma clip_nan (x lo hi : F) : f_is_nan x = true -> Np.clip x lo hi = x.
Proof.
  intro Hx. unfold Np.clip, Np.minimum, Np.maximum. now rewrite Hx, Hx.
Qed.

(** Two zeros add up to zero across the traces. *)
Lemma sample_mean_zeros (L : nat) :
  sample_mean L [Np.zero; Np.zero] = Np.zero.
Proof.
  unfold sample_mean, sum_across, Np.sum.
  destruct (L =? 1)%nat;
    cbn [Np.pairwise_sum List.length Nat.ltb Nat.leb Np.sum_in_turn fold_left];
    now rewrite !add_zero_zero, half_zero.
Qed.

Variables (c : F) (L : nat).
Hypothesis exact : exact_on c L.

(** Without rounding the standard deviation of two copies of one constant
    trace is zero at every sample. *)
Lemma std_of_two_constant_traces :
  Np.std_axis0 [constant_trace c L; constant_trace c L] = repeat Np.zero L.
Proof.
  destruct exact as [Hc Hm _].
  unfold Np.std_axis0. rewrite var_axis0_per_sample by (repeat constructor).
  unfold per_sample_variance, samples_per_trace, constant_trace. cbn [hd].
  rewrite repeat_length.
  rewrite (map_ext_in _ (fun _ => Np.zero) (seq 0 L)).
  - now rewrite map_const, length_seq, map_repeat, sqrt_zero.
  - intros i Hi. apply in_seq in Hi. unfold column. cbn [map].
    rewrite (nth_repeat_lt c Np.zero) by lia.
    unfold sample_variance. cbv zeta. rewrite Hm. cbn [map].
    rewrite Hc, mul_zero_zero. apply sample_mean_zeros.
Qed.

(** Without rounding the residuals of a constant row are zero, and the
    correlation coefficient of two copies of it is a quotient of zeros or
    of NaNs. *)
Lemma corrcoef_of_constant_traces :
  f_is_nan (Np.corrcoef01 (constant_trace c L) (constant_trace c L)) = true.
Proof.
  destruct exact as [Hc _ Hr].
  unfold Np.corrcoef01. cbv zeta. rewrite Hr.
  unfold constant_trace. rewrite map_repeat, Hc, repeat_length, dot_zeros.
  set (z := f_mul Np.zero (f_div Np.one (f_of_nat (L - 1)))).
  assert (Hq : f_is_nan (f_div (f_div z (f_sqrt z)) (f_sqrt z)) = true).
  { apply nan_div. destruct (scaled_zero (L - 1)) as [Hz | Hz]; fold z in Hz.
    - rewrite Hz, sqrt_zero. apply zero_div_zero.
    - now apply nan_div. }
  now rewrite clip_nan.
Qed.

End ConstantTraces.

(** C6, as amended: when float64 arithmetic is exact on the constant [c] in
    traces of [L >= 1] samples ([c - c] is zero, and the mean of the two
    values at a sample and the mean of a row of [L] copies of [c] give [c]
    back), the analysis of two identical constant traces is returned without
    an exception, its standard deviation is 0 at every sample and its
    average correlation is NaN.  This holds in every float64 structure that
    has the IEEE rules for zero and NaN, whatever inner product it has. *)
Theorem two_constant_traces_exact {W F : Type} `{Float64 F}
    {laws : Float64Laws F}
    (w : W) (lg : list event) (sc tg : option unit) (cn : bool)
    (c : F) (L : nat) :
  (1 <= L)%nat ->
  exact_on c L ->
  exists a s',
    analyze_traces
      (mkState w lg sc tg cn [constant_trace c L; constant_trace c L])
      = (Ret (Some a), s') /\
    std_trace a = repeat Np.zero L /\
    f_is_nan (avg_correlation a) = true.
Proof.
  intros HL Hex.
  destruct (@analyze_traces_returns W F _ w lg sc tg cn (constant_trace c L)
              [constant_trace c L]) as (a & s' & E & R).
  - repeat constructor.
  - unfold constant_trace. destruct L; [lia | discriminate].
  - exists a, s'. destruct R as (_ & _ & Hs & _ & _ & Hc).
    split; [exact E | split].
    + rewrite Hs. now apply std_of_two_constant_traces.
    + rewrite Hc. unfold average_correlation. cbn [List.length Nat.ltb Nat.leb].
      cbn [trace_pairs seq flat_map map Nat.sub app fst snd nth].
      unfold Np.mean, Np.sum.
      cbn [Np.pairwise_sum List.length Nat.ltb Nat.leb Np.sum_in_turn fold_left].
      apply nan_div, nan_add. now apply corrcoef_of_constant_traces.
Qed.

(** float64 is exact on 1.0 in traces of nine samples. *)
Lemma float64_exact_on_one : exact_on 1%float 9.
Proof. split; vm_compute; reflexivity. Qed.

(** C6 as amended, on two traces of nine samples 1.0 in binary64. *)
Lemma two_constant_traces_exact_witness :
  exists a s',
    analyze_traces
      (mkState (idle float) [] (Some tt) (Some tt) true
         [constant_trace 1%float 9; constant_trace 1%float 9])
      = (Ret (Some a), s') /\
    std_trace a = repeat Np.zero 9 /\
    f_is_nan (avg_correlation a) = true.
Proof.
  apply (@two_constant_traces_exact _ float _ _ (idle float) [] (Some tt)
           (Some tt) true 1%float 9%nat).
  - lia.
  - exact float64_exact_on_one.
Defined.

(** C6, as stated, fails in binary64 in both of its parts.  For two
    identical traces of three samples 0.1 the mean of a row rounds to
    0.10000000000000002, the residuals are [-0x1p-56] and not zero, and the
    average correlation is 1, not NaN (the products and sums of these
    residuals are exact, so that every inner product gives the same).  For
    two identical traces of two samples 1e308 the sum of the two values at a
    sample overflows, and the standard deviation is infinite, not 0. *)
Lemma two_constant_traces_float_correlation_not_nan :
  (exists a s',
     analyze_traces
       (mkState (idle float) [] (Some tt) (Some tt) true
          [constant_trace 0x1.999999999999ap-4%float 3;
           constant_trace 0x1.999999999999ap-4%float 3])
       = (Ret (Some a), s') /\
     std_trace a = repeat Np.zero 3 /\
     avg_correlation a = 1%float /\
     f_is_nan (avg_correlation a) = false) /\
  (exists a s',
     analyze_traces
       (mkState (idle float) [] (Some tt) (Some tt) true
          [constant_trace 0x1.1ccf385ebc8ap+1023%float 2;
           constant_trace 0x1.1ccf385ebc8ap+1023%float 2])
       = (Ret (Some a), s') /\
     std_trace a = [infinity; infinity]).
Proof.
  split.
  - eexists. eexists. split; [vm_compute; reflexivity |].
    repeat split; vm_compute; reflexivity.
  - eexists. eexists. split; [vm_compute; reflexivity |].
    vm_compute. reflexivity.
Qed.

(* ------------------------------------------------------------------ *)
(** ** Exact arithmetic on real samples *)

Lemma rsum_cons (x : R) (l : list R) : rsum (x :: l) = (x + rsum l)%R.
Proof. reflexivity. Qed.

Lemma fold_left_xadd (l : list R) (x : R) :
  fold_left (xlift2 Rplus) (map XR l) (XR x) = XR (x + rsum l).
Proof.
  revert x. induction l as [| y l IH]; intro x.
  - cbn. f_equal. lra.
  - cbn [map fold_left xlift2]. rewrite IH, rsum_cons. f_equal. lra.
Qed.

Lemma rsum_app (a b : list R) : rsum (a ++ b) = (rsum a + rsum b)%R.
Proof.
  induction a as [| x a IH].
  - change (rsum b = 0 + rsum b)%R. lra.
  - cbn [app]. rewrite !rsum_cons, IH. lra.
Qed.

Lemma sum_in_turn_reals (l : list R) :
  Np.sum_in_turn (map XR l) = XR (rsum l).
Proof.
  destruct l as [| x l]; [reflexivity |]. cbn [map Np.sum_in_turn].
  apply fold_left_xadd.
Qed.

(** The eight running sums hold, with the items left over, the sum of the
    whole run. *)
Lemma add_groups_reals (k : nat) (ll rr : list R) :
  (List.length ll <= k)%nat -> List.length rr = 8%nat ->
  exists rr' rest,
    Np.add_groups (map XR rr) (map XR ll) = (map XR rr', map XR rest) /\
    List.length rr' = 8%nat /\
    (rsum rr' + rsum rest = rsum rr + rsum ll)%R.
Proof.
  revert ll rr. induction k as [| k IH]; intros ll rr Hk Hr.
  - destruct ll; [| cbn in Hk; lia]. exists rr, []. now repeat split.
  - destruct ll as [| a0 [| a1 [| a2 [| a3 [| a4 [| a5 [| a6 [| a7 l']]]]]]]];
      try (eexists rr, _; repeat split; [reflexivity | exact Hr]).
    destruct rr as [| r0 [| r1 [| r2 [| r3 [| r4 [| r5 [| r6 [| r7 [| r8 rr]]]]]]]]];
      try discriminate Hr.
    destruct (IH l' [r0 + a0; r1 + a1; r2 + a2; r3 + a3;
                     r4 + a4; r5 + a5; r6 + a6; r7 + a7]%R)
      as (rr' & rest & E & Hl & Hs); [cbn in Hk; lia | reflexivity |].
    exists rr', rest. split; [exact E | split; [exact Hl |]].
    rewrite Hs, !rsum_cons. change (rsum []) with 0%R. lra.
Qed.

Lemma sum_of_eight_reals (rr : list R) :
  List.length rr = 8%nat -> Np.sum_of_eight (map XR rr) = XR (rsum rr).
Proof.
  intro Hr.
  destruct rr as [| r0 [| r1 [| r2 [| r3 [| r4 [| r5 [| r6 [| r7 [| r8 rr]]]]]]]]];
    try discriminate Hr.
  cbn [map Np.sum_of_eight f_add float64_exact xlift2]. f_equal.
  rewrite !rsum_cons. change (rsum []) with 0%R. lra.
Qed.

Lemma sum_unrolled_reals (l : list R) :
  (8 <= List.length l)%nat -> Np.sum_unrolled (map XR l) = XR (rsum l).
Proof.
  intro Hl. unfold Np.sum_unrolled. rewrite firstn_map, skipn_map.
  destruct (@add_groups_reals (List.length (skipn 8 l)) (skipn 8 l) (firstn 8 l))
    as (rr' & rest & E & Hr & Hs);
    [lia | rewrite length_firstn; lia |].
  rewrite E, (sum_of_eight_reals _ Hr), fold_left_xadd, Hs, <- rsum_app.
  now rewrite firstn_skipn.
Qed.

(** In exact arithmetic the pairwise sum is the sum. *)
Lemma pairwise_sum_reals (fuel : nat) (l : list R) :
  Np.pairwise_sum fuel (map XR l) = XR (rsum l).
Proof.
  revert l. induction fuel as [| fuel IH]; intro l; cbn [Np.pairwise_sum];
    rewrite length_map;
    (destruct (List.length l <? 8)%nat eqn:E8; [apply sum_in_turn_reals |]);
    apply Nat.ltb_ge in E8;
    (destruct (List.length l <=? 128)%nat; [now apply sum_unrolled_reals |]).
  - now apply sum_unrolled_reals.
  - rewrite firstn_map, skipn_map, !IH.
    cbn [f_add float64_exact xlift2]. rewrite <- rsum_app.
    now rewrite firstn_skipn.
Qed.

Lemma xsum_reals (l : list R) : Np.sum (map XR l) = XR (rsum l).
Proof.
  unfold Np.sum. rewrite pairwise_sum_reals.
  cbn. f_equal. lra.
Qed.

Lemma xsum_across_reals (L : nat) (l : list R) :
  sum_across L (map XR l) = XR (rsum l).
Proof.
  unfold sum_across. destruct (L =? 1)%nat; [apply xsum_reals |].
  change (@Np.zero xreal _) with (XR 0). rewrite fold_left_xadd.
  f_equal. lra.
Qed.

Lemma INR_length_pos (A : Type) (l : list A) :
  l <> [] -> (0 < INR (List.length l))%R.
Proof.
  intro Hl. apply lt_0_INR. destruct l; [now elim Hl | cbn; lia].
Qed.

Lemma xmean_reals (l : list R) :
  l <> [] -> Np.mean (map XR l) = XR (rmean l).
Proof.
  intro Hl. unfold Np.mean. rewrite xsum_reals, length_map.
  cbn [f_div f_of_nat float64_exact xdiv].
  pose proof (INR_length_pos Hl) as Hp.
  destruct (Req_dec_T (INR (List.length l)) 0) as [E | _]; [lra | reflexivity].
Qed.

Lemma xsample_mean_reals (L : nat) (l : list R) :
  l <> [] -> sample_mean L (map XR l) = XR (rmean l).
Proof.
  intro Hl. unfold sample_mean. rewrite xsum_across_reals, length_map.
  cbn [f_div f_of_nat float64_exact xdiv].
  pose proof (INR_length_pos Hl) as Hp.
  destruct (Req_dec_T (INR (List.length l)) 0) as [E | _]; [lra | reflexivity].
Qed.




Lemma rsum_repeat (x : R) (n : nat) : rsum (repeat x n) = (INR n * x)%R.
Proof.
  induction n as [| n IH]; [cbn; lra |].
  change (repeat x (S n)) with (x :: repeat x n).
  rewrite rsum_cons, IH, S_INR. lra.
Qed.




(* ------------------------------------------------------------------ *)
(** ** One deviating sample *)







Section WellShaped.
Context {W F : Type} `{Float64 F}.


End WellShaped.



(** The same three traces in binary64, where their sums are exact: the
    index 1 of the deviating sample is the one selected. *)
Example deviating_sample_run :
  exists a s',
    analyze_traces
      (mkState (idle float) [] (Some tt) (Some tt) true
         [[1; 2; 3]; [1; 7; 3]; [1; 2; 3]]%float)
      = (Ret (Some a), s') /\
    high_variance_points (variance a) = [1%nat] /\
    interesting_points a = 1%nat.
Proof.
  eexists. eexists. split; [vm_compute; reflexivity |].
  split; vm_compute; reflexivity.
Qed.


(* ------------------------------------------------------------------ *)
(** ** Exact arithmetic is exact on every constant *)

(** In exact arithmetic every real constant, in traces of any positive
    length, satisfies the conditions of the amended C6. *)
Lemma reals_exact_on (c : R) (L : nat) :
  (0 < L)%nat -> exact_on (XR c) L.
Proof.
  intro HL. split.
  - cbn. f_equal. lra.
  - change [XR c; XR c] with (map XR [c; c]).
    rewrite xsample_mean_reals by discriminate.
    f_equal. unfold rmean. cbn. field.
  - unfold constant_trace. rewrite <- map_repeat.
    rewrite xmean_reals by (destruct L; [lia | discriminate]).
    f_equal. unfold rmean. rewrite rsum_repeat, repeat_length.
    field. apply not_0_INR. lia.
Qed.

(* ------------------------------------------------------------------ *)
(** * Further properties of the methods *)

(** ** Payload bytes *)

Lemma byte_of_int_some (x : Z) (b : Byte.byte) :
  byte_of_int x = Some b <-> (0 <= x < 256)%Z /\ Z.of_N (Byte.to_N b) = x.
Proof.
  unfold byte_of_int. destruct (0 <=? x)%Z eqn:Hx.
  - apply Z.leb_le in Hx. rewrite Byte.to_of_N_iff. split.
    + intro E. pose proof (Byte.to_N_bounded b) as Hb. rewrite E in *. lia.
    + intros [_ E]. rewrite <- E. now rewrite N2Z.id.
  - apply Z.leb_gt in Hx. split; [discriminate | lia].
Qed.

Lemma byte_of_int_none (x : Z) :
  byte_of_int x = None <-> ~ (0 <= x < 256)%Z.
Proof.
  unfold byte_of_int. destruct (0 <=? x)%Z eqn:Hx.
  - apply Z.leb_le in Hx. rewrite Byte.of_N_None_iff. lia.
  - apply Z.leb_gt in Hx. split; [lia | reflexivity].
Qed.

(** X1: [bytearray] accepts exactly the lists whose items are all in
    [range(0, 256)]; the bytes it returns read back as the items, and any
    other list raises. *)
Theorem bytearray_accepts_exactly_bytes (input_data : list Z) :
  (Forall (fun x => 0 <= x < 256)%Z input_data ->
   exists data,
     bytearray input_data = Ret data /\
     map (fun b => Z.of_N (Byte.to_N b)) data = input_data)
  /\ (~ Forall (fun x => 0 <= x < 256)%Z input_data ->
      exists e, bytearray input_data = Raise e).
Proof.
  induction input_data as [| x r [IHok IHbad]].
  - split; [intros _; now exists [] | intro Hn; elim Hn; constructor].
  - split.
    + intro Hall. inversion Hall as [| ? ? Hx Hr]; subst.
      destruct (IHok Hr) as [data [E M]].
      destruct (byte_of_int x) as [b |] eqn:Eb.
      * exists (b :: data). cbn [bytearray map]. rewrite Eb, E.
        apply byte_of_int_some in Eb. destruct Eb as [_ Eb].
        split; [reflexivity | now rewrite Eb, M].
      * apply byte_of_int_none in Eb. now elim Eb.
    + intro Hn. cbn [bytearray].
      destruct (byte_of_int x) as [b |] eqn:Eb; [| eexists; reflexivity].
      apply byte_of_int_some in Eb. destruct Eb as [Hx _].
      destruct IHbad as [e E].
      * intro Hr. apply Hn. now constructor.
      * rewrite E. eexists. reflexivity.
Qed.

(** X2: the input of every loop index, also beyond 255 or negative, is a
    valid payload of 16 equal bytes holding the index modulo 256; indices
    256 apart send the same payload. *)
Theorem loop_payload_is_sixteen_bytes (i : Z) :
  (exists b,
     bytearray (input_of i) = Ret (repeat b 16) /\
     Z.of_N (Byte.to_N b) = (i mod 256)%Z)
  /\ input_of (i + 256) = input_of i.
Proof.
  split.
  - assert (Hr : (0 <= i mod 256 < 256)%Z) by (apply Z.mod_pos_bound; lia).
    destruct (byte_of_int (i mod 256)) as [b |] eqn:Eb.
    + exists b. unfold input_of. cbn [repeat bytearray]. rewrite Eb.
      split; [reflexivity |]. now apply byte_of_int_some in Eb.
    + apply byte_of_int_none in Eb. now elim Eb.
  - unfold input_of. f_equal.
    replace (i + 256)%Z with (i + 1 * 256)%Z by lia. apply Z.mod_add. lia.
Qed.

(* ------------------------------------------------------------------ *)
(** ** A single capture, case by case *)

(** Every path through [capture_real_trace], by the outcomes of its calls. *)
Ltac capture_cases :=
  unfold capture_real_trace, traced, try_except, bind, scope_call,
    on_scope, on_target, call, lift, ret;
  cbn [record with_traces scope target world log traces connected fst snd];
  repeat match goal with
         | |- context [match ?x with _ => _ end] =>
             lazymatch x with
             | context [match _ with _ => _ end] => fail
             | _ => destruct x eqn:?
             end;
             cbn [record with_traces scope target world log traces connected
                  fst snd status_of is_some] in *
         end.

(** Equal calls in equal worlds have equal outcomes: the facts about the
    calls of one run are brought together until they agree or clash. *)
Ltac same_outcomes :=
  repeat match goal with
         | H : ?a <> ?a |- _ => now elim H
         | H : Ret _ = Raise _ |- _ => discriminate H
         | H : Raise _ = Ret _ |- _ => discriminate H
         | H : (Raise _, _) = (Ret _, _) |- _ => discriminate H
         | H : (Ret _, _) = (Raise _, _) |- _ => discriminate H
         | H : Ret _ = Ret _ |- _ => inversion H; subst; clear H
         | H : (_, _) = (_, _) |- _ => inversion H; subst; clear H
         | H1 : ?x = (_, _), H2 : ?x = (_, _) |- _ => rewrite H1 in H2
         end;
  try discriminate; try reflexivity.

(** X3: [capture_real_trace] returns a trace exactly when the object holds
    both handles, the input converts to bytes, arm, write, capture and
    read-back all return, and the read-back is not [None]; it never
    raises. *)
Theorem capture_real_trace_succeeds_iff {W F : Type} `{Float64 F}
    (dev : Device W F) (input_data : list Z) (s : state W F) (t : list F) :
  (exists o, fst (capture_real_trace dev input_data s) = Ret o) /\
  (fst (capture_real_trace dev input_data s) = Ret (Some t) <->
   exists data w1 w2 w3 w4,
     scope s <> None /\ target s <> None /\
     bytearray input_data = Ret data /\
     scope_arm dev (world s) = (Ret tt, w1) /\
     target_simpleserial_write dev "p" data w1 = (Ret tt, w2) /\
     scope_capture dev w2 = (Ret tt, w3) /\
     scope_get_last_trace dev w3 = (Ret (Some t), w4)).
Proof.
  split; [apply capture_real_trace_returns |].
  capture_cases; repeat match goal with u : unit |- _ => destruct u end;
    (split;
     [ intro E; try discriminate E; inversion E; subst;
       do 5 eexists; repeat split; try eassumption; try discriminate;
       reflexivity
     | intros (data & x1 & x2 & x3 & x4 & Hs & Ht & Hb & Ha & Hw & Hc & Hg);
       same_outcomes ]).
Qed.

Lemma bytearray_out_of_range (input_data : list Z) (x : Z) :
  In x input_data -> ~ (0 <= x < 256)%Z ->
  exists e, bytearray input_data = Raise e.
Proof.
  induction input_data as [| y r IH]; intros Hin Hx; [now elim Hin |].
  cbn [bytearray].
  destruct (byte_of_int y) as [b |] eqn:Eb; [| eexists; reflexivity].
  destruct Hin as [-> | Hin].
  - apply byte_of_int_some in Eb. now elim Hx.
  - destruct (IH Hin Hx) as [e E]. rewrite E. eexists. reflexivity.
Qed.

(** X4: when an item of the input is not a byte, [capture_real_trace]
    returns [None] and sends nothing to the target: its only external call
    is the arming of the scope (none at all without a scope handle). *)
Theorem capture_real_trace_bad_payload {W F : Type} `{Float64 F}
    (dev : Device W F) (input_data : list Z) (x : Z) (s : state W F) :
  In x input_data -> ~ (0 <= x < 256)%Z ->
  fst (capture_real_trace dev input_data s) = Ret None /\
  io_calls (log (snd (capture_real_trace dev input_data s))) =
    io_calls (log s) ++ match scope s with Some _ => [Arm] | None => [] end.
Proof.
  intros Hin Hx. destruct (bytearray_out_of_range input_data Hin Hx) as [e E].
  capture_cases; try discriminate;
    (split; [reflexivity |]);
    rewrite !io_calls_app; cbn; now rewrite ?app_nil_r.
Qed.

(** X4 on the scripted device, for the input [[1; 256]]. *)
Lemma capture_real_trace_bad_payload_witness :
  fst (capture_real_trace (mock_device float) [1; 256]%Z
         (holding (idle float) [])) = Ret None /\
  io_calls (log (snd (capture_real_trace (mock_device float) [1; 256]%Z
                        (holding (idle float) [])))) =
    io_calls (log (holding (idle float) (@nil (list float)))) ++
    match scope (holding (idle float) (@nil (list float))) with
    | Some _ => [Arm]
    | None => []
    end.
Proof.
  apply (@capture_real_trace_bad_payload _ _ _ (mock_device float)
           [1; 256]%Z 256%Z (holding (idle float) [])).
  - right. now left.
  - lia.
Defined.

(* ------------------------------------------------------------------ *)
(** ** Edges of the capture loop *)

(** X5: for [num_traces <= 0] the loop body never runs:
    [capture_multiple_traces] empties the TraceSet, makes no capture and no
    external call, and returns [False]. *)
Theorem capture_multiple_traces_nothing_to_do {W F : Type} `{Float64 F}
    (dev : Device W F) (n : Z) (s : state W F) :
  (n <= 0)%Z ->
  fst (capture_multiple_traces dev n s) = Ret false /\
  traces (snd (capture_multiple_traces dev n s)) = [] /\
  attempts (log (snd (capture_multiple_traces dev n s))) = attempts (log s) /\
  io_calls (log (snd (capture_multiple_traces dev n s))) = io_calls (log s).
Proof.
  intro Hn. unfold capture_multiple_traces, range.
  replace (Z.to_nat n) with 0%nat by lia.
  cbn. rewrite !attempts_app, !io_calls_app. cbn.
  now rewrite !app_nil_r.
Qed.

(** X5 for [num_traces = -3], with two traces stored before. *)
Lemma capture_multiple_traces_nothing_to_do_witness :
  let s := holding (idle float) [[1%float]; [2%float]] in
  fst (capture_multiple_traces (mock_device float) (-3) s) = Ret false /\
  traces (snd (capture_multiple_traces (mock_device float) (-3) s)) = [] /\
  attempts (log (snd (capture_multiple_traces (mock_device float) (-3) s)))
    = attempts (log s) /\
  io_calls (log (snd (capture_multiple_traces (mock_device float) (-3) s)))
    = io_calls (log s).
Proof.
  cbv zeta.
  apply (@capture_multiple_traces_nothing_to_do _ _ _ (mock_device float)
           (-3)%Z (holding (idle float) [[1%float]; [2%float]])).
  lia.
Defined.

Lemma range_first (n : Z) :
  (1 <= n)%Z -> exists r, range n = 0%Z :: r.
Proof.
  intro Hn. unfold range. destruct (Z.to_nat n) as [| k] eqn:E; [lia |].
  cbn. eexists. reflexivity.
Qed.

(** X6: a waveform of zero samples is not caught: when the first capture of
    a run reads back such a waveform, [capture_multiple_traces] raises (from
    [np.min] in the printed statistics) after that one attempt, with the
    empty trace already appended. *)
Theorem capture_multiple_traces_raises_on_empty_waveform
    {W F : Type} `{Float64 F} (dev : Device W F) (n : Z) (s : state W F) :
  (1 <= n)%Z ->
  fst (capture_real_trace dev (input_of 0) (loop_start n s)) = Ret (Some []) ->
  (exists e, fst (capture_multiple_traces dev n s) = Raise e) /\
  traces (snd (capture_multiple_traces dev n s)) = [[]] /\
  attempts (log (snd (capture_multiple_traces dev n s))) =
    attempts (log s) ++ [input_of 0].
Proof.
  intros Hn Hc. destruct (range_first Hn) as [r Hr].
  pose proof (capture_real_trace_same_traces dev (input_of 0) (loop_start n s))
    as Hs.
  pose proof (capture_real_trace_attempts dev (input_of 0) (loop_start n s))
    as Ha.
  assert (E : exists e s1,
             capture_multiple_traces dev n s = (Raise e, s1) /\
             traces s1 = [[]] /\
             attempts (log s1) = attempts (log s) ++ [input_of 0]).
  { unfold capture_multiple_traces, traced. unfold bind at 1, set_traces at 1.
    change {| world := world (record (Enter (CaptureMultipleTraces n)) s);
              log := log (record (Enter (CaptureMultipleTraces n)) s);
              scope := scope (record (Enter (CaptureMultipleTraces n)) s);
              target := target (record (Enter (CaptureMultipleTraces n)) s);
              connected :=
                connected (record (Enter (CaptureMultipleTraces n)) s);
              traces := [] |}
      with (loop_start n s).
    rewrite Hr. cbn [for_each].
    unfold capture_iteration. unfold bind, get_traces, set_traces, lift, ret.
    destruct (capture_real_trace dev (input_of 0) (loop_start n s)) as [o s1].
    cbn [fst snd] in *. subst o. unfold same_traces in Hs.
    cbn [Np.min fst snd]. do 2 eexists. split; [reflexivity |].
    cbn [traces log record]. rewrite Hs, attempts_app, Ha.
    cbn [loop_start log record with_traces traces].
    rewrite attempts_app. cbn. split; [reflexivity | now rewrite !app_nil_r]. }
  destruct E as (e & s1 & E & Ht & Hl). rewrite E. cbn [fst snd].
  repeat split; [now exists e | exact Ht | exact Hl].
Qed.

(** X6 on the device without samples, for a run of three. *)
Lemma capture_multiple_traces_raises_on_empty_waveform_witness :
  let s : state unit float := holding tt [] in
  (exists e, fst (capture_multiple_traces (blank_device float) 3 s) = Raise e)
  /\ traces (snd (capture_multiple_traces (blank_device float) 3 s)) = [[]]
  /\ attempts (log (snd (capture_multiple_traces (blank_device float) 3 s)))
     = attempts (log s) ++ [input_of 0].
Proof.
  cbv zeta.
  apply (@capture_multiple_traces_raises_on_empty_waveform _ _ _
           (blank_device float) 3%Z (holding tt [])).
  - lia.
  - reflexivity.
Defined.

(* ------------------------------------------------------------------ *)
(** ** Acquiring and releasing the hardware *)

(** Every path through a method without loops, by the outcomes of its
    calls. *)
Ltac method_cases :=
  unfold traced, try_except, bind, scope_call, target_call, on_scope,
    on_target, if_scope, if_target, call, lift, emit, ret, set_scope,
    set_target, set_connected;
  cbn [record scope target world log traces connected fst snd];
  repeat match goal with
         | |- context [match ?x with _ => _ end] =>
             lazymatch x with
             | context [match _ with _ => _ end] => fail
             | _ => destruct x eqn:?
             end;
             cbn [record scope target world log traces connected fst snd
                  status_of is_some] in *
         end;
  repeat match goal with u : unit |- _ => destruct u end.

(** X7: [connect] never raises.  It returns [True] exactly when opening the
    scope, opening the target and the default setup all return; only then is
    [connected] set; and a handle that was opened is kept on the object even
    when a later call fails. *)
Theorem connect_succeeds_iff {W F : Type} (dev : Device W F) (s : state W F) :
  exists b,
    fst (connect dev s) = Ret b /\
    (b = true <->
     exists w1 w2 w3,
       cw_scope dev (world s) = (Ret tt, w1) /\
       cw_target dev w1 = (Ret tt, w2) /\
       scope_default_setup dev w2 = (Ret tt, w3)) /\
    connected (snd (connect dev s)) = (connected s || b)%bool /\
    (forall w1, cw_scope dev (world s) = (Ret tt, w1) ->
                scope (snd (connect dev s)) = Some tt) /\
    (forall w1 w2, cw_scope dev (world s) = (Ret tt, w1) ->
                   cw_target dev w1 = (Ret tt, w2) ->
                   target (snd (connect dev s)) = Some tt).
Proof.
  unfold connect. method_cases.
  all: eexists; split; [reflexivity |].
  all: split;
    [ split;
      [ intro E; try discriminate E; do 3 eexists; repeat split; eassumption
      | intros (x1 & x2 & x3 & H1 & H2 & H3); same_outcomes ] |].
  all: split; [now rewrite ?orb_true_r, ?orb_false_r |].
  all: split; [intros x1 H1 | intros x1 x2 H1 H2]; same_outcomes.
Qed.

(** X8: [disconnect] releases the scope if the object holds a scope handle,
    and the target if it holds a target handle and releasing the scope did
    not raise; it makes no other external call, and it leaves the handles
    and the [connected] flag as they were. *)
Theorem disconnect_releases_what_is_held {W F : Type} (dev : Device W F)
    (s : state W F) :
  io_calls (log (snd (disconnect dev s))) =
    io_calls (log s) ++
    match scope s with
    | Some _ =>
        ScopeDis ::
        match fst (scope_dis dev (world s)), target s with
        | Ret _, Some _ => [TargetDis]
        | _, _ => []
        end
    | None =>
        match target s with
        | Some _ => [TargetDis]
        | None => []
        end
    end
  /\ scope (snd (disconnect dev s)) = scope s
  /\ target (snd (disconnect dev s)) = target s
  /\ connected (snd (disconnect dev s)) = connected s.
Proof.
  unfold disconnect. method_cases.
  all: rewrite !io_calls_app; cbn; rewrite ?app_nil_r, <- ?app_assoc.
  all: repeat split; congruence.
Qed.

Lemma bind_returned {W F A B : Type} (m : M W F A) (f : A -> M W F B)
    (s s' : state W F) (a : A) :
  m s = (Ret a, s') -> bind m f s = f a s'.
Proof. intro E. unfold bind. now rewrite E. Qed.

(** What a failed [connect] leaves behind, by the call that raised. *)
Lemma connect_failed {W F : Type} (dev : Device W F) (w : W) :
  (forall e w1, cw_scope dev w = (Raise e, w1) ->
     exists s1 : state W F,
       connect dev (init w) = (Ret false, s1) /\
       scope s1 = None /\ target s1 = None /\
       io_calls (log s1) = [CwScope])
  /\ (forall w1 e w2,
        cw_scope dev w = (Ret tt, w1) -> cw_target dev w1 = (Raise e, w2) ->
        exists s1 : state W F,
          connect dev (init w) = (Ret false, s1) /\
          scope s1 = Some tt /\ target s1 = None /\
          io_calls (log s1) = [CwScope; CwTarget])
  /\ (forall w1 w2 e w3,
        cw_scope dev w = (Ret tt, w1) -> cw_target dev w1 = (Ret tt, w2) ->
        scope_default_setup dev w2 = (Raise e, w3) ->
        exists s1 : state W F,
          connect dev (init w) = (Ret false, s1) /\
          scope s1 = Some tt /\ target s1 = Some tt /\
          io_calls (log s1) = [CwScope; CwTarget; DefaultSetup] /\
          world s1 = w3).
Proof.
  repeat split.
  - intros e w1 H1. eexists.
    unfold connect, traced, try_except, bind, call, ret. cbn. rewrite H1.
    repeat split.
  - intros w1 e w2 H1 H2. eexists.
    unfold connect, traced, try_except, bind, call, ret, set_scope. cbn.
    rewrite H1. cbn. rewrite H2. repeat split.
  - intros w1 w2 e w3 H1 H2 H3. eexists.
    unfold connect, traced, try_except, bind, scope_call, on_scope.
    unfold call, ret, set_scope, set_target. cbn.
    rewrite H1. cbn. rewrite H2. cbn. rewrite H3. repeat split.
Qed.

(** The calls of [disconnect], by the handles the object holds. *)
Lemma disconnect_calls {W F : Type} (dev : Device W F) (s : state W F) :
  io_calls (log (snd (disconnect dev s))) =
    io_calls (log s) ++
    match scope s with
    | Some _ =>
        ScopeDis ::
        match fst (scope_dis dev (world s)), target s with
        | Ret _, Some _ => [TargetDis]
        | _, _ => []
        end
    | None =>
        match target s with
        | Some _ => [TargetDis]
        | None => []
        end
    end.
Proof.
  unfold disconnect. method_cases.
  all: rewrite !io_calls_app; cbn; now rewrite ?app_nil_r, <- ?app_assoc.
Qed.

(** A run that ends in its first step. *)
Lemma main_after_failed_connect {W F : Type} `{Float64 F} (dev : Device W F)
    (w : W) (s1 : state W F) :
  connect dev (init w) = (Ret false, s1) ->
  fst (main dev w) = Ret tt /\
  io_calls (log (snd (main dev w))) =
    io_calls (log (snd (disconnect dev s1))).
Proof.
  intro E.
  assert (Em : main dev w = (Ret tt, snd (disconnect dev s1))).
  { unfold main, main_body, try_finally.
    unfold bind at 1. unfold run_demo.
    rewrite bind_returned with (a := false) (s' := s1) by exact E.
    cbn [negb ret].
    pose proof (disconnect_returns dev s1) as Hr.
    destruct (disconnect dev s1) as [[[] | e] s2]; [| discriminate Hr].
    reflexivity. }
  rewrite Em. split; reflexivity.
Qed.

(** X9: when [connect] fails, [main] ends normally and releases exactly what
    was acquired.  If opening the scope raised, no release call is made; if
    opening the target raised, the scope is released; if the default setup
    raised, the scope is released, and then the target exactly when
    releasing the scope returned. *)
Theorem main_releases_after_failed_connect {W F : Type} `{Float64 F}
    (dev : Device W F) (w : W) :
  (forall e w1, cw_scope dev w = (Raise e, w1) ->
     fst (main dev w) = Ret tt /\
     io_calls (log (snd (main dev w))) = [CwScope])
  /\ (forall w1 e w2,
        cw_scope dev w = (Ret tt, w1) -> cw_target dev w1 = (Raise e, w2) ->
        fst (main dev w) = Ret tt /\
        io_calls (log (snd (main dev w))) = [CwScope; CwTarget; ScopeDis])
  /\ (forall w1 w2 e w3,
        cw_scope dev w = (Ret tt, w1) -> cw_target dev w1 = (Ret tt, w2) ->
        scope_default_setup dev w2 = (Raise e, w3) ->
        fst (main dev w) = Ret tt /\
        io_calls (log (snd (main dev w))) =
          [CwScope; CwTarget; DefaultSetup; ScopeDis] ++
          match fst (scope_dis dev w3) with
          | Ret _ => [TargetDis]
          | Raise _ => []
          end).
Proof.
  destruct (connect_failed (F := F) dev w) as (C1 & C2 & C3).
  repeat split.
  - destruct (C1 e w1 H0) as (s1 & E & Hs & Ht & Hl).
    now apply main_after_failed_connect with (s1 := s1).
  - destruct (C1 e w1 H0) as (s1 & E & Hs & Ht & Hl).
    destruct (main_after_failed_connect dev w E) as [_ ->].
    now rewrite disconnect_calls, Hs, Ht, Hl.
  - destruct (C2 w1 e w2 H0 H1) as (s1 & E & Hs & Ht & Hl).
    now apply main_after_failed_connect with (s1 := s1).
  - destruct (C2 w1 e w2 H0 H1) as (s1 & E & Hs & Ht & Hl).
    destruct (main_after_failed_connect dev w E) as [_ ->].
    rewrite disconnect_calls, Hs, Ht, Hl.
    now destruct (fst (scope_dis dev (world s1))).
  - destruct (C3 w1 w2 e w3 H0 H1 H2) as (s1 & E & Hs & Ht & Hl & Hw).
    now apply main_after_failed_connect with (s1 := s1).
  - destruct (C3 w1 w2 e w3 H0 H1 H2) as (s1 & E & Hs & Ht & Hl & Hw).
    destruct (main_after_failed_connect dev w E) as [_ ->].
    rewrite disconnect_calls, Hs, Ht, Hl, Hw.
    now destruct (fst (scope_dis dev w3)).
Qed.

(* ------------------------------------------------------------------ *)
(** ** The object before [connect] *)

Section Unconnected.
Context {W F : Type} `{Float64 F}.
Variable dev : Device W F.

Lemma capture_real_trace_unconnected (input_data : list Z) (s : state W F) :
  unconnected s ->
  fst (capture_real_trace dev input_data s) = Ret None /\
  unconnected (snd (capture_real_trace dev input_data s)) /\
  traces (snd (capture_real_trace dev input_data s)) = traces s /\
  io_calls (log (snd (capture_real_trace dev input_data s))) =
    io_calls (log s).
Proof.
  intros [Hs Ht]. unfold capture_real_trace, traced, try_except, bind,
    scope_call, on_scope, ret.
  cbn [record scope]. rewrite Hs. cbn.
  rewrite !io_calls_app. cbn. rewrite !app_nil_r.
  repeat split; cbn; first [assumption | reflexivity].
Qed.

Lemma capture_loop_unconnected (xs : list Z) (s : state W F) :
  unconnected s ->
  exists s',
    for_each xs (capture_iteration dev) s = (Ret tt, s') /\
    unconnected s' /\ traces s' = traces s /\
    io_calls (log s') = io_calls (log s).
Proof.
  revert s. induction xs as [| x r IH]; intros s Hu.
  - exists s. split; [reflexivity |]. split; [exact Hu |]. now split.
  - destruct (capture_real_trace_unconnected (input_of x) Hu)
      as (Hr & Hu1 & Ht1 & Hl1).
    cbn [for_each]. unfold bind at 1. unfold capture_iteration at 1.
    unfold bind at 1.
    destruct (capture_real_trace dev (input_of x) s) as [o s1].
    cbn [fst snd] in *. subst o. unfold ret at 1.
    destruct (IH s1 Hu1) as (s' & E & Hu' & Ht' & Hl').
    exists s'. rewrite E. repeat split; try apply Hu'; congruence.
Qed.

End Unconnected.

(** X10: an object that holds no handle touches no hardware: the probe
    returns [False], a single capture returns [None], a capture run of any
    length returns [False] with an empty TraceSet, and [disconnect] returns,
    all without one external call. *)
Theorem unconnected_object_touches_no_hardware {W F : Type} `{Float64 F}
    (dev : Device W F) (s : state W F) (input_data : list Z) (n : Z) :
  unconnected s ->
  (fst (test_target_communication dev s) = Ret false /\
   io_calls (log (snd (test_target_communication dev s))) = io_calls (log s))
  /\ (fst (capture_real_trace dev input_data s) = Ret None /\
      io_calls (log (snd (capture_real_trace dev input_data s)))
        = io_calls (log s))
  /\ (fst (capture_multiple_traces dev n s) = Ret false /\
      traces (snd (capture_multiple_traces dev n s)) = [] /\
      io_calls (log (snd (capture_multiple_traces dev n s)))
        = io_calls (log s))
  /\ (fst (disconnect dev s) = Ret tt /\
      io_calls (log (snd (disconnect dev s))) = io_calls (log s)).
Proof.
  intro Hu. pose proof Hu as [Hs Ht].
  split; [| split; [| split]].
  - unfold test_target_communication, traced, try_except, bind, target_call,
      on_target, ret.
    cbn [record target]. rewrite Ht. cbn.
    rewrite !io_calls_app. cbn. now rewrite !app_nil_r.
  - destruct (capture_real_trace_unconnected dev input_data Hu)
      as (Hr & _ & _ & Hl).
    now split.
  - assert (E : exists s', capture_multiple_traces dev n s = (Ret false, s')
                           /\ traces s' = []
                           /\ io_calls (log s') = io_calls (log s)).
    { unfold capture_multiple_traces, traced.
      unfold bind at 1, set_traces at 1.
      change {| world := world (record (Enter (CaptureMultipleTraces n)) s);
                log := log (record (Enter (CaptureMultipleTraces n)) s);
                scope := scope (record (Enter (CaptureMultipleTraces n)) s);
                target := target (record (Enter (CaptureMultipleTraces n)) s);
                connected :=
                  connected (record (Enter (CaptureMultipleTraces n)) s);
                traces := [] |}
        with (loop_start n s).
      destruct (capture_loop_unconnected dev (range n) (s := loop_start n s))
        as (s' & E & _ & Ht' & Hl'); [split; assumption |].
      unfold bind at 1. rewrite E. unfold bind, get_traces, ret.
      rewrite Ht'. cbn [loop_start traces with_traces record List.length Nat.ltb
                        Nat.leb fst snd status_of].
      eexists. split; [reflexivity |]. split; [exact Ht' |].
      cbn [log record]. rewrite io_calls_app, Hl'.
      cbn [loop_start log record with_traces]. rewrite io_calls_app. cbn.
      now rewrite !app_nil_r. }
    destruct E as (s' & E & Ht' & Hl'). rewrite E. now repeat split.
  - split; [apply disconnect_returns |].
    rewrite disconnect_calls, Hs, Ht. now rewrite app_nil_r.
Qed.

(** X10 on a fresh object in front of the scripted device. *)
Lemma unconnected_object_touches_no_hardware_witness :
  let dev := mock_device float in
  let s : state (mock float) float := init (idle float) in
  (fst (test_target_communication dev s) = Ret false /\
   io_calls (log (snd (test_target_communication dev s))) = io_calls (log s))
  /\ (fst (capture_real_trace dev [7%Z] s) = Ret None /\
      io_calls (log (snd (capture_real_trace dev [7%Z] s)))
        = io_calls (log s))
  /\ (fst (capture_multiple_traces dev 4 s) = Ret false /\
      traces (snd (capture_multiple_traces dev 4 s)) = [] /\
      io_calls (log (snd (capture_multiple_traces dev 4 s)))
        = io_calls (log s))
  /\ (fst (disconnect dev s) = Ret tt /\
      io_calls (log (snd (disconnect dev s))) = io_calls (log s)).
Proof.
  cbv zeta.
  apply (@unconnected_object_touches_no_hardware _ _ _ (mock_device float)
           (init (idle float)) [7%Z] 4%Z).
  split; reflexivity.
Defined.

(* ------------------------------------------------------------------ *)
(** ** The whole of an analysis *)

(** The pairs of the correlation loops. *)
Lemma trace_pairs_in (n i j : nat) :
  In (i, j) (trace_pairs n) <-> (i < j < n)%nat.
Proof.
  unfold trace_pairs. rewrite in_flat_map. split.
  - intros (k & Hk & Hin). apply in_seq in Hk. apply in_map_iff in Hin.
    destruct Hin as (m & E & Hm). apply in_seq in Hm. inversion E; subst. lia.
  - intro Hij. exists i. split; [apply in_seq; lia |].
    apply in_map_iff. exists j. split; [reflexivity | apply in_seq; lia].
Qed.

Lemma trace_pairs_count_from (n k a : nat) :
  (a + k <= n)%nat ->
  (2 * List.length
         (flat_map (fun i => map (fun j => (i, j)) (seq (S i) (n - S i)))
            (seq a k))
   = k * (2 * n - 2 * a - k - 1))%nat.
Proof.
  revert a. induction k as [| k IH]; intros a Ha; [reflexivity |].
  cbn [seq flat_map]. rewrite length_app, length_map, length_seq.
  specialize (IH (S a)). nia.
Qed.

Lemma trace_pairs_count (n : nat) :
  (2 * List.length (trace_pairs n) = n * (n - 1))%nat.
Proof.
  unfold trace_pairs. rewrite trace_pairs_count_from by lia. nia.
Qed.

Lemma io_calls_of_calls (A : Type) (c : A -> io_call) (xs : list A) :
  io_calls (map (fun x => Io (c x)) xs) = map c xs.
Proof.
  induction xs as [| x r IH]; [reflexivity |].
  cbn [map]. change (io_calls (Io (c x) :: map (fun y => Io (c y)) r))
    with (c x :: io_calls (map (fun y => Io (c y)) r)).
  now rewrite IH.
Qed.

Section AnalysisRun.
Context {W F : Type} `{Float64 F}.

(** The correlation loops, with the state they leave. *)
Lemma collect_emit_log (A B : Type) (e : A -> event) (g : A -> B)
    (xs : list A) (s : state W F) :
  collect xs (fun x => bind (emit (e x)) (fun _ => ret (g x))) s =
  (Ret (map g xs),
   {| world := world s; log := log s ++ map e xs; scope := scope s;
      target := target s; connected := connected s; traces := traces s |}).
Proof.
  revert s. induction xs as [| x r IH]; intro s.
  - cbn. rewrite app_nil_r. now destruct s.
  - cbn [collect map]. unfold bind at 1 2, emit at 1, ret at 1.
    unfold bind at 1. rewrite IH. unfold ret. cbn [record log world scope
      target connected traces]. now rewrite <- app_assoc.
Qed.

(** An analysis of equally long traces with samples, in full: the dictionary
    it returns and the calls it logs. *)
Lemma analyze_traces_run (w : W) (lg : list event) (sc tg : option unit)
    (cn : bool) (t : list F) (ts : list (list F)) :
  Forall (fun r => List.length r = List.length t) (t :: ts) ->
  t <> [] ->
  exists a s',
    analyze_traces (mkState w lg sc tg cn (t :: ts)) = (Ret (Some a), s') /\
    num_traces a = List.length (t :: ts) /\
    trace_length a = List.length t /\
    mean_trace a = Np.mean_axis0 (t :: ts) /\
    std_trace a = map f_sqrt (Np.var_axis0 (t :: ts)) /\
    variance a = Np.var_axis0 (t :: ts) /\
    Np.max (mean_trace a) = Ret (max_power a) /\
    Np.min (mean_trace a) = Ret (min_power a) /\
    power_range a = f_sub (max_power a) (min_power a) /\
    interesting_points a =
      List.length (high_variance_points (Np.var_axis0 (t :: ts))) /\
    io_calls (log s') =
      io_calls lg ++ corrcoef_calls (List.length (t :: ts)).
Proof.
  intros Hs Ht.
  assert (Hm : List.length (Np.mean_axis0 (t :: ts)) = List.length t)
    by (apply mean_axis0_length, Hs).
  destruct (Np.mean_axis0 (t :: ts)) as [| m ms] eqn:Em.
  { destruct t; [now elim Ht | discriminate Hm]. }
  unfold analyze_traces, traced, corrcoef_calls.
  unfold bind at 1. unfold get_traces at 1.
  cbn [traces record fst snd].
  unfold bind at 1, lift at 1. rewrite (array_rectangular Hs).
  rewrite Em. unfold bind at 1, lift at 1. cbn [Np.max].
  unfold bind at 1, lift at 1. cbn [Np.min].
  unfold bind at 1.
  destruct (1 <? List.length (t :: ts))%nat.
  - unfold bind at 1. rewrite collect_emit_log. unfold ret.
    cbn [record log world scope target connected traces fst snd].
    do 2 eexists. split; [reflexivity |].
    cbn [num_traces trace_length mean_trace std_trace variance max_power
         min_power power_range interesting_points log].
    repeat split; try reflexivity; try (now rewrite <- Hm).
    cbn [log record].
    rewrite !io_calls_app, (io_calls_of_calls (fun ij => Corrcoef (fst ij) (snd ij))).
    cbn [io_calls flat_map app]. now rewrite !app_nil_r.
  - unfold ret. do 2 eexists. split; [reflexivity |].
    cbn [num_traces trace_length mean_trace std_trace variance max_power
         min_power power_range interesting_points log record].
    repeat split; try reflexivity; try (now rewrite <- Hm).
    rewrite !io_calls_app. cbn. now rewrite !app_nil_r.
Qed.

End AnalysisRun.

Lemma mean_axis0_per_sample {F : Type} `{Float64 F} (t : list F)
    (ts : list (list F)) :
  Forall (fun r => List.length r = List.length t) (t :: ts) ->
  Np.mean_axis0 (t :: ts) =
  map (fun i => sample_mean (List.length t) (column i (t :: ts)))
      (seq 0 (List.length t)).
Proof.
  intro Hs. apply (nth_ext _ _ Np.zero Np.zero).
  - now rewrite length_map, length_seq, (mean_axis0_length Hs).
  - intros i Hi. rewrite (mean_axis0_length Hs) in Hi.
    rewrite (mean_axis0_nth Hs Hi).
    rewrite (nth_indep _ Np.zero
               ((fun j => sample_mean (List.length t) (column j (t :: ts)))
                  0%nat))
      by (now rewrite length_map, length_seq).
    rewrite (map_nth (fun j => sample_mean (List.length t)
                                 (column j (t :: ts)))).
    now rewrite seq_nth.
Qed.

Lemma corrcoef_calls_count (n : nat) :
  (2 * List.length (corrcoef_calls n) = n * (n - 1))%nat.
Proof.
  unfold corrcoef_calls. destruct (1 <? n)%nat eqn:Hn.
  - rewrite length_map. apply trace_pairs_count.
  - apply Nat.ltb_ge in Hn. cbn. nia.
Qed.

Lemma corrcoef_calls_in (n i j : nat) :
  In (Corrcoef i j) (corrcoef_calls n) <-> (i < j < n)%nat.
Proof.
  unfold corrcoef_calls. destruct (1 <? n)%nat eqn:Hn.
  - rewrite in_map_iff. split.
    + intros ([a b] & E & Hin). inversion E; subst.
      now apply trace_pairs_in.
    + intro Hij. exists (i, j). split; [reflexivity |].
      now apply trace_pairs_in.
  - apply Nat.ltb_ge in Hn. split; [intros [] | lia].
Qed.

(** X11: for a TraceSet of equally long traces with samples, the analysis
    holds the number of traces and of samples per trace, at each sample the
    mean, the variance and the square root of the variance of the values the
    traces take there, each sum taken across the traces as numpy takes it,
    and a count of interesting points that is at most the number of
    samples. *)
Theorem analysis_holds_per_sample_statistics {W F : Type} `{Float64 F}
    (w : W) (lg : list event) (sc tg : option unit) (cn : bool)
    (ts : list (list F)) :
  ts <> [] -> well_shaped ts ->
  exists a s',
    analyze_traces (mkState w lg sc tg cn ts) = (Ret (Some a), s') /\
    num_traces a = List.length ts /\
    trace_length a = samples_per_trace ts /\
    mean_trace a =
      map (fun i => sample_mean (samples_per_trace ts) (column i ts))
          (seq 0 (samples_per_trace ts)) /\
    variance a = per_sample_variance ts /\
    std_trace a = map f_sqrt (per_sample_variance ts) /\
    (interesting_points a <= trace_length a)%nat.
Proof.
  intros Hne [Hpos Hall]. destruct ts as [| t ts]; [now elim Hne |].
  unfold samples_per_trace in *. cbn [hd] in *.
  destruct (analyze_traces_run w lg sc tg cn Hall)
    as (a & s' & E & Hn & Hl & Hm & Hsd & Hv & _ & _ & _ & Hi & _).
  { intro Et. subst. cbn in Hpos. lia. }
  assert (Hle : (interesting_points a <= List.length t)%nat).
  { rewrite Hi, (high_variance_points_spec Hall).
    unfold spec_interesting_indices. cbv zeta.
    etransitivity; [apply filter_length_le |].
    unfold samples_per_trace. cbn [hd]. now rewrite length_seq. }
  exists a, s'. split; [exact E |].
  rewrite Hn, Hl, Hm, Hsd, Hv, (var_axis0_per_sample Hall).
  rewrite (mean_axis0_per_sample Hall).
  repeat split; assumption.
Qed.

(** X11 on eight binary64 traces of the one sample 0.1, which numpy sums as
    one contiguous run: the mean is 0.1 again. *)
Lemma analysis_holds_per_sample_statistics_witness :
  let ts := repeat [0x1.999999999999ap-4%float] 8 in
  Np.mean_axis0 ts = [0x1.999999999999ap-4%float] /\
  exists a s',
    analyze_traces (mkState (idle float) [] (Some tt) (Some tt) true ts)
      = (Ret (Some a), s') /\
    num_traces a = List.length ts /\
    trace_length a = samples_per_trace ts /\
    mean_trace a =
      map (fun i => sample_mean (samples_per_trace ts) (column i ts))
          (seq 0 (samples_per_trace ts)) /\
    variance a = per_sample_variance ts /\
    std_trace a = map f_sqrt (per_sample_variance ts) /\
    (interesting_points a <= trace_length a)%nat.
Proof.
  cbv zeta. split; [vm_compute; reflexivity |].
  apply (@analysis_holds_per_sample_statistics _ _ _ (idle float) []
           (Some tt) (Some tt) true
           (repeat [0x1.999999999999ap-4%float] 8)).
  - discriminate.
  - split; [cbn; lia | repeat constructor].
Defined.

(** X12: an analysis of [n] equally long traces with samples calls
    [np.corrcoef] once for every pair [i < j] of traces, [n (n - 1) / 2]
    times in all and none for a single trace, and makes no other external
    call. *)
Theorem corrcoef_called_once_per_pair {W F : Type} `{Float64 F}
    (w : W) (lg : list event) (sc tg : option unit) (cn : bool)
    (ts : list (list F)) :
  ts <> [] -> well_shaped ts ->
  exists a s',
    analyze_traces (mkState w lg sc tg cn ts) = (Ret (Some a), s') /\
    io_calls (log s') = io_calls lg ++ corrcoef_calls (List.length ts) /\
    (2 * List.length (corrcoef_calls (List.length ts))
     = List.length ts * (List.length ts - 1))%nat /\
    (forall i j, In (Corrcoef i j) (corrcoef_calls (List.length ts))
                 <-> (i < j < List.length ts)%nat).
Proof.
  intros Hne [Hpos Hall]. destruct ts as [| t ts]; [now elim Hne |].
  unfold samples_per_trace in *. cbn [hd] in *.
  destruct (analyze_traces_run w lg sc tg cn Hall)
    as (a & s' & E & _ & _ & _ & _ & _ & _ & _ & _ & _ & Hio).
  { intro Et. subst. cbn in Hpos. lia. }
  exists a, s'. split; [exact E |]. split; [exact Hio |].
  split; [apply corrcoef_calls_count | intros i j; apply corrcoef_calls_in].
Qed.

(** X12 on three float64 traces: three calls. *)
Lemma corrcoef_called_once_per_pair_witness :
  let ts := [[1; 2; 3; 4]; [1; 2; 9; 4]; [1; 2; 3; 4]]%float in
  exists a s',
    analyze_traces (mkState (idle float) [] (Some tt) (Some tt) true ts)
      = (Ret (Some a), s') /\
    io_calls (log s') = io_calls [] ++ corrcoef_calls (List.length ts) /\
    (2 * List.length (corrcoef_calls (List.length ts))
     = List.length ts * (List.length ts - 1))%nat /\
    (forall i j, In (Corrcoef i j) (corrcoef_calls (List.length ts))
                 <-> (i < j < List.length ts)%nat).
Proof.
  cbv zeta.
  apply (@corrcoef_called_once_per_pair _ _ _ (idle float) [] (Some tt)
           (Some tt) true [[1; 2; 3; 4]; [1; 2; 9; 4]; [1; 2; 3; 4]]%float).
  - discriminate.
  - split; [cbn; lia | repeat constructor].
Defined.

(* ------------------------------------------------------------------ *)
(** ** Plotting *)

Lemma array_not_rectangular {F : Type} `{Float64 F} (t : list F)
    (ts : list (list F)) :
  ~ Forall (fun r => List.length r = List.length t) (t :: ts) ->
  exists e, Np.array (t :: ts) = Raise e.
Proof.
  intro Hn. destruct (Np.array (t :: ts)) as [rows | e] eqn:E.
  - elim Hn. now apply array_ragged with (rows := rows).
  - now exists e.
Qed.

Ltac calls_done :=
  cbn [fst snd saved status_of log record world];
  rewrite ?io_calls_app; cbn [io_calls flat_map app];
  rewrite ?app_nil_r, <- ?app_assoc; repeat split; try reflexivity.

(** X13: [generate_plot] on a TraceSet that is not empty hands the first
    five traces to the plot, and catches nothing.  If plotting the traces
    raises, it raises the same and never saves; for a single trace it saves
    without statistics; for several equally long traces it saves with the
    mean, the standard deviation and the high-variance points; for several
    traces of unequal length it raises after the traces were plotted. *)
Theorem generate_plot_outcomes {W F : Type} `{Float64 F}
    (dev : Device W F) (save_path : string)
    (w : W) (lg : list event) (sc tg : option unit) (cn : bool)
    (t : list F) (ts : list (list F)) :
  let s := mkState w lg sc tg cn (t :: ts) in
  let plotted := plt_plot_traces dev (firstn 5 (t :: ts)) w in
  let stats :=
    {| band_mean := Np.mean_axis0 (t :: ts);
       band_std := Np.std_axis0 (t :: ts);
       band_points := high_variance_points (Np.var_axis0 (t :: ts)) |} in
  (forall e, fst plotted = Raise e ->
     fst (generate_plot dev save_path s) = Raise e /\
     io_calls (log (snd (generate_plot dev save_path s)))
       = io_calls lg ++ [PlotTraces])
  /\ (fst plotted = Ret tt -> ts = [] ->
      fst (generate_plot dev save_path s)
        = saved (fst (plt_savefig dev None save_path (snd plotted))) /\
      io_calls (log (snd (generate_plot dev save_path s)))
        = io_calls lg ++ [PlotTraces; Savefig save_path])
  /\ (fst plotted = Ret tt -> ts <> [] ->
      Forall (fun r => List.length r = List.length t) (t :: ts) ->
      fst (generate_plot dev save_path s)
        = saved (fst (plt_savefig dev (Some stats) save_path (snd plotted)))
      /\ io_calls (log (snd (generate_plot dev save_path s)))
        = io_calls lg ++ [PlotTraces; Savefig save_path])
  /\ (fst plotted = Ret tt -> ts <> [] ->
      ~ Forall (fun r => List.length r = List.length t) (t :: ts) ->
      (exists e, fst (generate_plot dev save_path s) = Raise e) /\
      io_calls (log (snd (generate_plot dev save_path s)))
        = io_calls lg ++ [PlotTraces]).
Proof.
  cbv zeta.
  unfold generate_plot, traced, bind, get_traces, call, lift, ret.
  cbn [record world log scope target connected traces fst snd].
  destruct (plt_plot_traces dev (firstn 5 (t :: ts)) w) as [[[] | e0] w1].
  all: cbn [fst snd].
  all: split; [| split; [| split]].
  all: try (intros e E; discriminate E).
  all: try (intro E; discriminate E).
  - intros _ Hts. subst ts. cbn [List.length Nat.ltb Nat.leb record world log scope target connected
         traces fst snd].
    destruct (plt_savefig dev None save_path w1) as [[[] | e1] w2];
      calls_done.
  - intros _ Hts Hall. destruct ts as [| t2 ts]; [now elim Hts |].
    cbn [List.length Nat.ltb Nat.leb record world log scope target connected
         traces fst snd]. rewrite (array_rectangular Hall).
    cbn [record world log scope target connected traces fst snd].
    match goal with
    | |- context [plt_savefig dev ?b save_path w1] =>
        destruct (plt_savefig dev b save_path w1) as [[[] | e1] w2]
    end; calls_done.
  - intros _ Hts Hall. destruct ts as [| t2 ts]; [now elim Hts |].
    cbn [List.length Nat.ltb Nat.leb record world log scope target connected
         traces fst snd].
    destruct (array_not_rectangular Hall) as [e1 E1]. rewrite E1.
    cbn [record world log scope target connected traces fst snd].
    split; [now exists e1 | calls_done].
  - intros e E. inversion E; subst. calls_done.
Qed.

(* ------------------------------------------------------------------ *)
(** ** A successful run *)

Section SuccessfulRun.
Context {W F : Type} `{Float64 F}.
Variable dev : Device W F.

(** A turn of the capture loop appends at most one trace, and only a trace
    with samples lets the turn return. *)
Lemma capture_iteration_appends (i : Z) (s : state W F) :
  exists added,
    traces (snd (capture_iteration dev i s)) = traces s ++ added /\
    (List.length added <= 1)%nat /\
    (fst (capture_iteration dev i s) = Ret tt ->
     Forall (fun t => t <> []) added).
Proof.
  pose proof (capture_real_trace_same_traces dev (input_of i) s) as Hs.
  destruct (capture_iteration dev i s) as [r s2] eqn:E. cbn [fst snd].
  unfold capture_iteration in E.
  unfold bind, get_traces, set_traces, lift, ret in E.
  destruct (capture_real_trace dev (input_of i) s) as [[[t |] | e] s1];
    unfold same_traces in Hs; cbn [snd] in Hs.
  - exists [t]. destruct t as [| x t]; cbn in E; inversion E; subst;
      cbn [traces]; rewrite Hs.
    + split; [reflexivity |]. split; [cbn; lia |]. intro D. discriminate D.
    + split; [reflexivity |]. split; [cbn; lia |]. intros _.
      constructor; [discriminate | constructor].
  - exists []. inversion E; subst. rewrite Hs, app_nil_r.
    split; [reflexivity |]. split; [cbn; lia |]. intros _. constructor.
  - exists []. inversion E; subst. rewrite Hs, app_nil_r.
    split; [reflexivity |]. split; [cbn; lia |]. intros _. constructor.
Qed.

Lemma capture_loop_appends (xs : list Z) (s : state W F) :
  exists added,
    traces (snd (for_each xs (capture_iteration dev) s)) = traces s ++ added /\
    (List.length added <= List.length xs)%nat /\
    (fst (for_each xs (capture_iteration dev) s) = Ret tt ->
     Forall (fun t => t <> []) added).
Proof.
  revert s. induction xs as [| x r IH]; intro s.
  - exists []. cbn. rewrite app_nil_r.
    split; [reflexivity |]. split; [lia |]. intros _. constructor.
  - destruct (capture_iteration_appends x s) as (a1 & T1 & L1 & N1).
    destruct (for_each (x :: r) (capture_iteration dev) s) as [r0 s0] eqn:E.
    cbn [for_each] in E. unfold bind in E.
    destruct (capture_iteration dev x s) as [[[] | e] s1]; cbn [fst snd] in *.
    + destruct (IH s1) as (a2 & T2 & L2 & N2). rewrite E in T2, N2.
      cbn [fst snd] in T2, N2.
      exists (a1 ++ a2). rewrite T2, T1, <- app_assoc, length_app.
      split; [reflexivity |]. split; [cbn [List.length]; lia |].
      intro D. apply Forall_app. split; [now apply N1 | now apply N2].
    + inversion E; subst. exists a1.
      split; [exact T1 |]. split; [cbn [List.length]; lia |].
      intro D. discriminate D.
Qed.

(** A capture run that returns [True] leaves between one and [num_traces]
    traces, each with samples. *)
Lemma capture_multiple_traces_true (n : Z) (s s' : state W F) :
  capture_multiple_traces dev n s = (Ret true, s') ->
  (1 <= List.length (traces s') <= Z.to_nat n)%nat /\
  Forall (fun t => t <> []) (traces s').
Proof.
  unfold capture_multiple_traces, traced. unfold bind at 1, set_traces at 1.
  change {| world := world (record (Enter (CaptureMultipleTraces n)) s);
            log := log (record (Enter (CaptureMultipleTraces n)) s);
            scope := scope (record (Enter (CaptureMultipleTraces n)) s);
            target := target (record (Enter (CaptureMultipleTraces n)) s);
            connected := connected (record (Enter (CaptureMultipleTraces n)) s);
            traces := [] |}
    with (loop_start n s).
  destruct (capture_loop_appends (range n) (loop_start n s))
    as (added & T & L & N).
  unfold bind at 1.
  destruct (for_each (range n) (capture_iteration dev) (loop_start n s))
    as [[[] | e] s1]; cbn [fst snd] in *; [| discriminate].
  unfold bind, get_traces, ret. intro E. inversion E as [[Hb Hs']].
  cbn [traces record]. cbn [loop_start traces with_traces record app] in T.
  rewrite T. unfold range in L. rewrite length_map, length_seq in L.
  rewrite T in Hb. apply Nat.ltb_lt in Hb.
  split; [lia | now apply N].
Qed.

Lemma analyze_traces_same_traces :
  respects (W := W) (F := F) same_traces analyze_traces.
Proof.
  unfold analyze_traces.
  apply respects_traced; [exact I | intro; exact I |].
  apply respects_bind; [frame | intros [| t ts]]; [frame |].
  frame. frame_case; frame. now apply respects_emit.
Qed.

Lemma generate_plot_same_traces (save_path : string) :
  respects same_traces (generate_plot dev save_path).
Proof.
  unfold generate_plot.
  apply respects_traced; [exact I | intro; exact I |].
  apply respects_bind; [frame | intros [| t ts]]; [frame |].
  frame. frame_case; frame.
Qed.

(** An analysis is returned only for equally long traces with samples. *)
Lemma analyze_traces_some (s s' : state W F) (a : analysis F) :
  analyze_traces s = (Ret (Some a), s') -> well_shaped (traces s).
Proof.
  destruct s as [w lg sc tg cn ts]. cbn [traces].
  destruct ts as [| t ts]; [discriminate |].
  unfold analyze_traces, traced.
  unfold bind at 1. unfold get_traces at 1. cbn [traces record fst snd].
  unfold bind at 1, lift at 1.
  destruct (Np.array (t :: ts)) as [rows | e] eqn:Ea; [| discriminate].
  pose proof (array_ragged t ts Ea) as Hs.
  rewrite (array_rectangular Hs) in Ea. inversion Ea; subst rows.
  assert (Hm : List.length (Np.mean_axis0 (t :: ts)) = List.length t)
    by (apply mean_axis0_length, Hs).
  destruct (Np.mean_axis0 (t :: ts)) as [| m ms]; [discriminate |].
  intros _. split; [| exact Hs].
  unfold samples_per_trace. cbn [hd]. rewrite <- Hm. cbn. lia.
Qed.

(** The steps of a run that returned [True]. *)
Lemma run_demo_true (s s' : state W F) :
  run_demo dev s = (Ret true, s') ->
  exists s1 s2 s3 s4 a,
    connect dev s = (Ret true, s1) /\
    test_target_communication dev s1 = (Ret true, s2) /\
    capture_multiple_traces dev 5 s2 = (Ret true, s3) /\
    analyze_traces s3 = (Ret (Some a), s4) /\
    generate_plot dev default_save_path s4 = (Ret true, s').
Proof.
  unfold run_demo. unfold bind at 1.
  destruct (connect dev s) as [[[|] | e1] s1] eqn:E1; try discriminate.
  cbn [negb]. unfold bind at 1.
  destruct (test_target_communication dev s1) as [[[|] | e2] s2] eqn:E2;
    try discriminate.
  cbn [negb]. unfold bind at 1.
  destruct (capture_multiple_traces dev 5 s2) as [[[|] | e3] s3] eqn:E3;
    try discriminate.
  cbn [negb]. unfold bind at 1.
  destruct (analyze_traces s3) as [[[a |] | e4] s4] eqn:E4; try discriminate.
  cbn [negb is_some]. unfold bind at 1.
  destruct (generate_plot dev default_save_path s4) as [[[|] | e5] s5] eqn:E5;
    try discriminate.
  cbn [negb]. unfold ret. intro E. inversion E; subst.
  exists s1, s2, s3, s4, a. repeat split; assumption.
Qed.

End SuccessfulRun.

(** X14: when [run_demo] returns [True], the TraceSet it leaves holds
    between one and five traces, which are equally long and have samples:
    the run was analysed and plotted on well-formed data. *)
Theorem successful_run_leaves_well_shaped_traces {W F : Type} `{Float64 F}
    (dev : Device W F) (s : state W F) :
  fst (run_demo dev s) = Ret true ->
  (1 <= List.length (traces (snd (run_demo dev s))) <= 5)%nat /\
  well_shaped (traces (snd (run_demo dev s))).
Proof.
  destruct (run_demo dev s) as [r s'] eqn:E. cbn [fst snd]. intros ->.
  destruct (@run_demo_true _ _ _ dev s s' E) as (s1 & s2 & s3 & s4 & a & _ & _ & E3 & E4 & E5).
  destruct (@capture_multiple_traces_true _ _ _ dev 5%Z s2 s3 E3) as [Hlen _].
  pose proof (@analyze_traces_some _ _ _ s3 s4 a E4) as Hw.
  pose proof (analyze_traces_same_traces s3) as H4.
  pose proof (generate_plot_same_traces dev default_save_path s4) as H5.
  rewrite E4 in H4. rewrite E5 in H5. unfold same_traces in *. cbn [snd] in *.
  rewrite H5, H4. split; [exact Hlen | exact Hw].
Qed.

(** X14 on the scripted device, with five captures of two samples. *)
Lemma successful_run_leaves_well_shaped_traces_witness :
  let dev := mock_device float in
  let s : state (mock float) float :=
    init {| present := true; reply := "r";
            captures := [Ret (Some (1, [2])); Ret (Some (2, [2]));
                         Ret (Some (3, [5])); Ret (Some (1, [0]));
                         Ret (Some (4, [2]))]%float |} in
  (1 <= List.length (traces (snd (run_demo dev s))) <= 5)%nat /\
  well_shaped (traces (snd (run_demo dev s))).
Proof.
  cbv zeta.
  apply (@successful_run_leaves_well_shaped_traces _ _ _ (mock_device float)
           (init {| present := true; reply := "r";
                    captures := [Ret (Some (1, [2])); Ret (Some (2, [2]));
                                 Ret (Some (3, [5])); Ret (Some (1, [0]));
                                 Ret (Some (4, [2]))]%float |})).
  vm_compute. reflexivity.
Defined.
